(** * data_cleaning.py: the sales-data cleaning pipeline

    A shallow embedding of [src/data_cleaning.py] and the properties of its
    six stages.

    Modelling conventions.
    - A Python [str] is a [string]; characters are ASCII code points.
      Code points above 127 are carried along as caseless symbols that are
      not whitespace.
    - A pandas cell is a [cell]: text, an [int64] or [float64] scalar, a
      timestamp in nanoseconds, or [NaT].  [float64] is the IEEE-754 model
      [spec_float] of the standard library, whose [S754_nan] is pandas'
      missing marker [NaN].
    - A [DataFrame] is its ordered column labels and its ordered rows.
      Labels may repeat, as pandas allows; row labels (the index) are left
      out, since no stage reads them and the output is written without.
    - A stage that can raise returns a [result]; the exception classes are
      those pandas raises on the modelled path.
    - [drop_duplicates] compares rows by the values of their cells, as
      pandas does, not by the way a value is stored.
    - The scalar conversions of pandas that the script calls but does not
      define (number and date parsing, printing of floats and timestamps)
      are the fields of the interface [PandasScalars]. *)

From Stdlib Require Import Ascii String List ZArith Bool Arith Lia.
From Stdlib Require Import DecimalString.
From Stdlib Require Import Floats.SpecFloat.
Import ListNotations.

Open Scope string_scope.
Open Scope list_scope.

(* ================================================================= *)
(** ** Python string operations used by the script *)

Module PyStr.

(** [str.isspace] on one ASCII character, which is also what [\s]
    matches: TAB..CR, FS..US and the space. *)
Definition is_space (c : ascii) : bool :=
  let n := nat_of_ascii c in
  (((9 <=? n) && (n <=? 13)) || ((28 <=? n) && (n <=? 32)))%nat.

Definition is_upper (c : ascii) : bool :=
  let n := nat_of_ascii c in ((65 <=? n) && (n <=? 90))%nat.

Definition is_lower (c : ascii) : bool :=
  let n := nat_of_ascii c in ((97 <=? n) && (n <=? 122))%nat.

(** A cased character: for ASCII, a letter. *)
Definition is_cased (c : ascii) : bool := is_upper c || is_lower c.

Definition lower_char (c : ascii) : ascii :=
  if is_upper c then ascii_of_nat (nat_of_ascii c + 32) else c.

Definition upper_char (c : ascii) : ascii :=
  if is_lower c then ascii_of_nat (nat_of_ascii c - 32) else c.

Fixpoint map_chars (f : ascii -> ascii) (s : string) : string :=
  match s with
  | EmptyString => EmptyString
  | String c s' => String (f c) (map_chars f s')
  end.

(** [s.lower()] *)
Definition lower (s : string) : string := map_chars lower_char s.

(** [s.replace(old, new)] for patterns of one character. *)
Definition replace_char (old new : ascii) (s : string) : string :=
  map_chars (fun c => if Ascii.eqb c old then new else c) s.

Fixpoint lstrip_by (p : ascii -> bool) (s : string) : string :=
  match s with
  | EmptyString => EmptyString
  | String c s' => if p c then lstrip_by p s' else s
  end.

Fixpoint rstrip_by (p : ascii -> bool) (s : string) : string :=
  match s with
  | EmptyString => EmptyString
  | String c s' =>
      match rstrip_by p s' with
      | EmptyString => if p c then EmptyString else String c EmptyString
      | r => String c r
      end
  end.

Definition strip_by (p : ascii -> bool) (s : string) : string :=
  rstrip_by p (lstrip_by p s).

(** [s.strip()] *)
Definition strip (s : string) : string := strip_by is_space s.

(** The double-quote character. *)
Definition dquote : ascii := "034"%char.

(** [s.strip(ch)] for a one-character set. *)
Definition strip_char (ch : ascii) (s : string) : string :=
  strip_by (Ascii.eqb ch) s.

(** [re.sub(r"\s+", " ", s)]: every maximal run of whitespace becomes one
    space.  The flag records that the previous character was whitespace. *)
Fixpoint collapse_from (in_run : bool) (s : string) : string :=
  match s with
  | EmptyString => EmptyString
  | String c s' =>
      if is_space c
      then if in_run then collapse_from true s'
           else String " " (collapse_from true s')
      else String c (collapse_from false s')
  end.

Definition collapse_ws (s : string) : string := collapse_from false s.

(** [s.title()]: a cased character is upper-cased unless the character
    before it is cased, in which case it is lower-cased. *)
Fixpoint title_from (previous_is_cased : bool) (s : string) : string :=
  match s with
  | EmptyString => EmptyString
  | String c s' =>
      String (if previous_is_cased then lower_char c else upper_char c)
             (title_from (is_cased c) s')
  end.

Definition title (s : string) : string := title_from false s.

(** [sub in s] *)
Fixpoint contains (sub s : string) : bool :=
  prefix sub s ||
  match s with
  | EmptyString => false
  | String _ s' => contains sub s'
  end.

End PyStr.

(* ================================================================= *)
(** ** Cells, frames and exceptions *)

Inductive number :=
| NInt (z : Z)
| NFloat (f : spec_float).

Inductive cell :=
| VStr (s : string)
| VNum (x : number)
| VTime (ns : Z)
| VNaT.

Definition NaN : number := NFloat S754_nan.

(** The cell pandas stores for a field that is empty in the file. *)
Definition NA : cell := VNum NaN.

Definition row := list cell.

Record DataFrame := mkDataFrame {
  columns : list string;
  rows : list row
}.

Inductive exn :=
| KeyError (label : string)
| TypeError
| AttributeError
| ValueError.

Inductive result (A : Type) :=
| Ok (a : A)
| Raise (e : exn).

Arguments Ok {A} a.
Arguments Raise {A} e.

Definition bind {A B} (m : result A) (k : A -> result B) : result B :=
  match m with
  | Ok a => k a
  | Raise e => Raise e
  end.

Notation "x <- m ;; k" := (bind m (fun x => k))
  (at level 61, m at next level, right associativity).

Fixpoint mapM {A B} (f : A -> result B) (l : list A) : result (list B) :=
  match l with
  | [] => Ok []
  | a :: l' => b <- f a ;; bs <- mapM f l' ;; Ok (b :: bs)
  end.

(** The scalar conversions of pandas. *)
Class PandasScalars := {
  (** the number a non-numeric scalar converts to, if any ([pd.to_numeric]) *)
  parse_numeric : cell -> option number;
  (** the timestamp a present scalar converts to, if any ([pd.to_datetime]) *)
  parse_datetime : cell -> option Z;
  (** [str] of a float that is not [NaN] *)
  repr_float : spec_float -> string;
  (** [str] of a timestamp *)
  repr_time : Z -> string
}.

(** *** Column access *)

Fixpoint positions (label : string) (cols : list string) (i : nat) : list nat :=
  match cols with
  | [] => []
  | c :: cols' =>
      if String.eqb c label then i :: positions label cols' (S i)
      else positions label cols' (S i)
  end.

(** What [df[label]] finds: nothing, one column (a Series), or several
    columns sharing the label (a DataFrame). *)
Inductive selection :=
| Absent
| Series (i : nat)
| Frame.

Definition select (label : string) (df : DataFrame) : selection :=
  match positions label (columns df) 0 with
  | [] => Absent
  | [i] => Series i
  | _ => Frame
  end.

(** The cell of a row in column [i]; a short row reads as missing, which is
    how pandas pads a ragged record. *)
Definition at_col (i : nat) (r : row) : cell := nth i r NA.

Fixpoint update_nth (i : nat) (f : cell -> cell) (r : row) : row :=
  match r, i with
  | [], _ => []
  | c :: r', O => f c :: r'
  | c :: r', S i' => c :: update_nth i' f r'
  end.

(** [df[label] = df[label].map(f)] for the column at position [i]. *)
Definition map_column (i : nat) (f : cell -> cell) (df : DataFrame) : DataFrame :=
  {| columns := columns df; rows := map (update_nth i f) (rows df) |}.

(** [pd.isna] *)
Definition isna (c : cell) : bool :=
  match c with
  | VNaT => true
  | VNum (NFloat S754_nan) => true
  | _ => false
  end.

(** [df.dropna(subset=...)] for columns at the given positions. *)
Definition dropna (subset : list nat) (df : DataFrame) : DataFrame :=
  {| columns := columns df;
     rows := filter (fun r => negb (existsb (fun i => isna (at_col i r)) subset))
                    (rows df) |}.

(** [df[mask]] for a boolean mask over the rows. *)
Fixpoint take_mask {A} (mask : list bool) (l : list A) : list A :=
  match mask, l with
  | b :: mask', a :: l' => if b then a :: take_mask mask' l' else take_mask mask' l'
  | _, _ => []
  end.

(* ================================================================= *)
(** ** The stages *)

Section Stages.
Context {pandas : PandasScalars}.

(** One element of [series.astype(str)]: Python's [str] of the scalar.  The
    missing marker prints as the text [nan]. *)
Definition astype_str (c : cell) : string :=
  match c with
  | VStr s => s
  | VNum (NInt z) => NilZero.string_of_int (Z.to_int z)
  | VNum (NFloat S754_nan) => "nan"
  | VNum (NFloat f) => repr_float f
  | VTime t => repr_time t
  | VNaT => "NaT"
  end.

(** One element of [pd.to_numeric(series, errors="coerce")]: a number stays
    as it is, anything else is parsed, and what does not parse becomes
    [NaN].  This is the value of the element; pandas stores a column that
    mixes integers and floats as floats, which the cells do not record, and
    [drop_duplicates] below compares cells by value. *)
Definition to_numeric_coerce (c : cell) : cell :=
  match c with
  | VNum x => VNum x
  | _ => match parse_numeric c with
         | Some x => VNum x
         | None => NA
         end
  end.

(** One element of [pd.to_datetime(series, errors="coerce")]: a timestamp
    stays as it is, a missing value becomes [NaT], anything else is parsed,
    and what does not parse becomes [NaT]. *)
Definition to_datetime_coerce (c : cell) : cell :=
  match c with
  | VTime t => VTime t
  | _ => if isna c then VNaT
         else match parse_datetime c with
              | Some t => VTime t
              | None => VNaT
              end
  end.

(** *** [clean_column_names] *)

Definition clean_name (name : string) : string :=
  PyStr.replace_char " " "_" (PyStr.lower (PyStr.strip name)).

Definition clean_column_names (df : DataFrame) : DataFrame :=
  {| columns := map clean_name (columns df); rows := rows df |}.

(** *** [clean_categories] *)

Definition normalize_category (c : string) : string :=
  if PyStr.contains "office" c then "office"
  else if PyStr.contains "electronic" c then "electronics"
  else if PyStr.contains "kitchen" c then "kitchen"
  else if PyStr.contains "fitness" c then "fitness"
  else c.

(** The chain [.str.strip()], [.str.strip] of the double-quote character,
    [.str.replace(r"\s+", " ", regex=True)], [.str.lower()] on a text. *)
Definition tidy_category (s : string) : string :=
  PyStr.lower (PyStr.collapse_ws (PyStr.strip_char PyStr.dquote (PyStr.strip s))).

(** [.astype(str)], the chain, then [normalize_category], on one cell. *)
Definition category_value (c : cell) : cell :=
  VStr (normalize_category (tidy_category (astype_str c))).

(** With the label repeated, [df["category"]] is a DataFrame, which has no
    [.str] accessor. *)
Definition clean_categories (df : DataFrame) : result DataFrame :=
  match select "category" df with
  | Absent => Ok df
  | Series i => Ok (map_column i category_value df)
  | Frame => Raise AttributeError
  end.

(** *** [handle_missing_values] *)

(** The chain [.astype(str).str.strip().str.replace(r"\s+", " ",
    regex=True).str.title()] on one cell. *)
Definition prodname_value (c : cell) : cell :=
  VStr (PyStr.title (PyStr.collapse_ws (PyStr.strip (astype_str c)))).

(** The first block of the function, under [if "prodname" in df.columns]. *)
Definition clean_prodname (df : DataFrame) : result DataFrame :=
  match select "prodname" df with
  | Absent => Ok df
  | Series i => Ok (map_column i prodname_value df)
  | Frame => Raise AttributeError
  end.

(** [df[label] = pd.to_numeric(df[label], errors="coerce")]: a missing label
    is a [KeyError], and [pd.to_numeric] rejects a DataFrame. *)
Definition coerce_numeric (label : string) (df : DataFrame) : result (nat * DataFrame) :=
  match select label df with
  | Absent => Raise (KeyError label)
  | Series i => Ok (i, map_column i to_numeric_coerce df)
  | Frame => Raise TypeError
  end.

(** The second block of the function: both conversions, then
    [df.dropna(subset=["price", "qty"])]. *)
Definition coerce_and_drop (df : DataFrame) : result DataFrame :=
  pd <- coerce_numeric "price" df ;;
  qd <- coerce_numeric "qty" (snd pd) ;;
  Ok (dropna [fst pd; fst qd] (snd qd)).

Definition handle_missing_values (df : DataFrame) : result DataFrame :=
  df <- clean_prodname df ;;
  coerce_and_drop df.

(** *** [remove_invalid_rows] *)

(** [x > 0] on one scalar: a number is compared, [NaN > 0] and [NaT > 0]
    are false, and a text or a timestamp cannot be compared with a number. *)
Definition gt_zero (c : cell) : result bool :=
  match c with
  | VNum (NInt z) => Ok (0 <? z)%Z
  | VNum (NFloat f) => Ok (SFltb (S754_zero false) f)
  | VNaT => Ok false
  | VStr _ | VTime _ => Raise TypeError
  end.

(** [df[label] > 0]; with the label repeated the comparison yields a frame,
    which pandas cannot align with the other mask. *)
Definition mask_gt_zero (label : string) (df : DataFrame) : result (list bool) :=
  match select label df with
  | Absent => Raise (KeyError label)
  | Series i => mapM (fun r => gt_zero (at_col i r)) (rows df)
  | Frame => Raise ValueError
  end.

Fixpoint mask_and (m1 m2 : list bool) : list bool :=
  match m1, m2 with
  | a :: m1', b :: m2' => (a && b) :: mask_and m1' m2'
  | _, _ => []
  end.

Definition remove_invalid_rows (df : DataFrame) : result DataFrame :=
  mp <- mask_gt_zero "price" df ;;
  mq <- mask_gt_zero "qty" df ;;
  Ok {| columns := columns df; rows := take_mask (mask_and mp mq) (rows df) |}.

(** *** [clean_dates] *)

(** With the label repeated, [pd.to_datetime] is given a DataFrame and
    cannot assemble dates from it. *)
Definition clean_dates (df : DataFrame) : result DataFrame :=
  match select "date_sold" df with
  | Absent => Ok df
  | Series i => Ok (dropna [i] (map_column i to_datetime_coerce df))
  | Frame => Raise ValueError
  end.

End Stages.

(** *** [drop_duplicates] *)

(** pandas compares the cells of a column by value: a float equals the
    integer or float of the same value, [0.0] equals [-0.0], and the missing
    markers [NaN] and [NaT] all count as one value.  The key of a cell is
    that value in a unique form: a number that is neither zero, infinite nor
    [NaN] is a sign, an odd mantissa and a binary exponent. *)
Inductive key :=
| KStr (s : string)
| KMissing
| KInf (negative : bool)
| KZero
| KVal (negative : bool) (mantissa : positive) (exponent : Z)
| KTime (t : Z).

(** [p] as an odd number times a power of two. *)
Fixpoint odd_part (p : positive) : positive * Z :=
  match p with
  | xO p' => let (m, k) := odd_part p' in (m, (k + 1)%Z)
  | _ => (p, 0%Z)
  end.

Definition dyadic_key (negative : bool) (m : positive) (e : Z) : key :=
  let (m', k) := odd_part m in KVal negative m' (e + k)%Z.

Definition number_key (x : number) : key :=
  match x with
  | NInt Z0 => KZero
  | NInt (Zpos p) => dyadic_key false p 0
  | NInt (Zneg p) => dyadic_key true p 0
  | NFloat S754_nan => KMissing
  | NFloat (S754_infinity negative) => KInf negative
  | NFloat (S754_zero _) => KZero
  | NFloat (S754_finite negative m e) => dyadic_key negative m e
  end.

Definition cell_key (c : cell) : key :=
  match c with
  | VStr s => KStr s
  | VNum x => number_key x
  | VTime t => KTime t
  | VNaT => KMissing
  end.

Definition row_key (r : row) : list key := map cell_key r.


Definition key_eq_dec (a b : key) : {a = b} + {a <> b}.
Proof.
  repeat decide equality.
Defined.

Definition row_key_eq_dec : forall a b : list key, {a = b} + {a <> b} :=
  list_eq_dec key_eq_dec.

(** A row of the same values has been seen. *)
Definition row_in (r : row) (seen : list (list key)) : bool :=
  if in_dec row_key_eq_dec (row_key r) seen then true else false.

(** [df.duplicated(keep="first")]: a row is marked when a row of the same
    values came before it. *)
Fixpoint duplicated_from (seen : list (list key)) (rs : list row) : list bool :=
  match rs with
  | [] => []
  | r :: rs' =>
      if row_in r seen then true :: duplicated_from seen rs'
      else false :: duplicated_from (row_key r :: seen) rs'
  end.

Definition duplicated (rs : list row) : list bool := duplicated_from [] rs.

(** [df.drop_duplicates()]: pandas returns a frame without columns (or
    without rows) as it is, and [df[~df.duplicated()]] otherwise. *)
Definition drop_duplicates (df : DataFrame) : DataFrame :=
  match columns df with
  | [] => df
  | _ => {| columns := columns df;
            rows := take_mask (map negb (duplicated (rows df))) (rows df) |}
  end.

(** *** The script's main block, between [load_data] and [to_csv] *)

Definition main {pandas : PandasScalars} (df_raw : DataFrame) : result DataFrame :=
  let df_clean := clean_column_names df_raw in
  df_clean <- clean_categories df_clean ;;
  df_clean <- clean_dates df_clean ;;
  df_clean <- handle_missing_values df_clean ;;
  df_clean <- remove_invalid_rows df_clean ;;
  Ok (drop_duplicates df_clean).

(* ================================================================= *)
(** ** A small instance of the scalar conversions

    Enough of pandas' parsers to run the stages on concrete frames: whole
    numbers in decimal notation, and dates written [yyyy-mm-dd], read as the
    instant [yyyymmdd]. *)

Module Sample.

Definition digit (c : ascii) : option Z :=
  let n := nat_of_ascii c in
  if ((48 <=? n) && (n <=? 57))%nat then Some (Z.of_nat (n - 48)) else None.

Fixpoint digits (acc : Z) (s : string) : option Z :=
  match s with
  | EmptyString => Some acc
  | String c s' =>
      match digit c with
      | Some d => digits (10 * acc + d) s'
      | None => None
      end
  end.

Definition natural (s : string) : option Z :=
  match s with
  | EmptyString => None
  | _ => digits 0 s
  end.

Definition integer (s : string) : option Z :=
  match s with
  | String "-" s' => option_map Z.opp (natural s')
  | _ => natural s
  end.

Definition iso_date (s : string) : option Z :=
  match natural (substring 0 4 s), natural (substring 5 2 s),
        natural (substring 8 2 s) with
  | Some y, Some m, Some d =>
      if (String.eqb (substring 4 1 s) "-" && String.eqb (substring 7 1 s) "-"
          && (String.length s =? 10)%nat
          && (1 <=? m)%Z && (m <=? 12)%Z && (1 <=? d)%Z && (d <=? 31)%Z)%bool
      then Some (y * 10000 + m * 100 + d)%Z
      else None
  | _, _, _ => None
  end.

(** Zeros and infinities print as in Python; a finite float prints as its
    mantissa and binary exponent, not in Python's shortest decimal form. *)
Definition show_float (f : spec_float) : string :=
  match f with
  | S754_zero false => "0.0"
  | S754_zero true => "-0.0"
  | S754_infinity false => "inf"
  | S754_infinity true => "-inf"
  | S754_nan => "nan"
  | S754_finite sign m e =>
      (if sign then "-" else "")
      ++ NilZero.string_of_int (Z.to_int (Zpos m)) ++ "p"
      ++ NilZero.string_of_int (Z.to_int e)
  end.

#[global] Instance scalars : PandasScalars := {|
  parse_numeric c := match c with VStr s => option_map NInt (integer s) | _ => None end;
  parse_datetime c := match c with VStr s => iso_date s | _ => None end;
  repr_float := show_float;
  repr_time t := NilZero.string_of_int (Z.to_int t)
|}.

Definition raw : DataFrame :=
  {| columns := ["ProdName "; " CATEGORY "; "price"; "qty"; "Date Sold"];
     rows :=
       [ [VStr " standing   desk "; VStr "Office"; VStr "150"; VStr "2"; VStr "2024-01-05"];
         [VStr "pen set"; VStr " OFFICE FURNITURE "; VStr "5"; VStr "10"; VStr "2024-01-06"];
         [VStr "Standing Desk"; VStr "office"; VStr "150"; VStr "2"; VStr "2024-01-05"];
         [VStr "blender"; VStr "Kitchen appliances"; VStr "-10"; VStr "1"; VStr "2024-01-07"];
         [VStr "yoga mat"; VStr "fitness gear"; VStr "20"; VStr "abc"; VStr "2024-01-08"];
         [VStr "usb-c hub"; VStr (String PyStr.dquote ("Electronics" ++ String PyStr.dquote "")); VStr "30"; VStr "3"; NA];
         [VStr "kid's lamp"; NA; VStr "12"; VStr "1"; VStr "2024-02-10"] ] |}.

Definition cleaned : DataFrame :=
  {| columns := ["prodname"; "category"; "price"; "qty"; "date_sold"];
     rows :=
       [ [VStr "Standing Desk"; VStr "office"; VNum (NInt 150); VNum (NInt 2); VTime 20240105];
         [VStr "Pen Set"; VStr "office"; VNum (NInt 5); VNum (NInt 10); VTime 20240106];
         [VStr "Kid'S Lamp"; VStr "nan"; VNum (NInt 12); VNum (NInt 1); VTime 20240210] ] |}.

(** A frame without the optional columns. *)
Definition bare : DataFrame :=
  {| columns := ["sku"; "price"; "qty"];
     rows := [ [VStr "a1"; VStr "3"; VStr "4"];
               [VStr "a2"; NA; VStr "1"];
               [VStr "a3"; VStr "x"; VStr "2"] ] |}.

Definition bare_handled : DataFrame :=
  {| columns := ["sku"; "price"; "qty"];
     rows := [ [VStr "a1"; VNum (NInt 3); VNum (NInt 4)] ] |}.

(** A frame without a price column. *)
Definition no_price : DataFrame :=
  {| columns := ["sku"; "qty"]; rows := [ [VStr "a1"; VStr "4"] ] |}.

(** A numeric frame that still holds missing markers. *)
Definition numeric : DataFrame :=
  {| columns := ["price"; "qty"];
     rows := [ [VNum (NInt 3); VNum (NInt 1)];
               [NA; VNum (NInt 2)];
               [VNum (NFloat (S754_infinity false)); NA];
               [VNum (NInt (-1)); VNum (NInt 5)];
               [VNum (NInt 3); VNum (NInt 1)] ] |}.

(** A frame of categories without quotes. *)
Definition plain : DataFrame :=
  {| columns := ["category"; "date_sold"];
     rows := [ [VStr " Office  Chairs "; VStr "2024-03-01"];
               [VStr "  Garden   TOOLS "; VStr "soon"];
               [NA; VStr "2024-03-02"] ] |}.

(** A frame with two labels that clean to the same label. *)
Definition merged : DataFrame :=
  {| columns := ["Price"; "price "; "qty"];
     rows := [ [VStr "1"; VStr "2"; VStr "3"] ] |}.

(** A raw frame without quoted categories, whose prices and quantities are
    all whole numbers. *)
Definition shop : DataFrame :=
  {| columns := ["ProdName "; " CATEGORY "; "price"; "qty"; "Date Sold"];
     rows :=
       [ [VStr " standing   desk "; VStr "Office"; VStr "150"; VStr "2"; VStr "2024-01-05"];
         [VStr "pen set"; VStr " OFFICE FURNITURE "; VStr "5"; VStr "10"; VStr "2024-01-06"];
         [VStr "Standing Desk"; VStr "office"; VStr "150"; VStr "2"; VStr "2024-01-05"];
         [VStr "blender"; VStr "Kitchen appliances"; VStr "-10"; VStr "1"; VStr "2024-01-07"];
         [VStr "kid's lamp"; NA; VStr "12"; VStr "1"; VStr "2024-02-10"];
         [VStr "garden hose"; VStr "  Garden   Tools "; VStr "7"; VStr "4"; VStr "soon"] ] |}.

(** A frame with zeros of both signs and with three as an integer and as a
    float. *)
Definition zeros : DataFrame :=
  {| columns := ["x"];
     rows := [ [VNum (NFloat (S754_zero false))];
               [VNum (NFloat (S754_zero true))];
               [VNum (NInt 3)];
               [VNum (NFloat (S754_finite false 6755399441055744 (-51)))] ] |}.

(** A frame whose price column still holds text. *)
Definition text_price : DataFrame :=
  {| columns := ["price"; "qty"];
     rows := [ [VNum (NInt 3); VNum (NInt 1)]; [VStr "3"; VNum (NInt 1)] ] |}.

End Sample.

(* ================================================================= *)
(** ** Vocabulary of the statements *)

(** The per-character action of [clean_name] after stripping. *)
Definition name_char (c : ascii) : ascii :=
  let l := PyStr.lower_char c in if Ascii.eqb l " " then "_"%char else l.

(** [sub] is [l] with some elements left out, the others in their order. *)
Inductive Subsequence {A} : list A -> list A -> Prop :=
| subseq_nil : Subsequence [] []
| subseq_keep a sub l : Subsequence sub l -> Subsequence (a :: sub) (a :: l)
| subseq_drop a sub l : Subsequence sub l -> Subsequence sub (a :: l).

(** Every row has one cell per column. *)
Definition well_formed (df : DataFrame) : Prop :=
  Forall (fun r : row => length r = length (columns df)) (rows df).

(** A cell that holds a number greater than zero. *)
Definition positive (c : cell) : Prop :=
  match c with
  | VNum (NInt z) => (0 < z)%Z
  | VNum (NFloat f) => SFltb (S754_zero false) f = true
  | _ => False
  end.

(** The mask entry of a cell whose comparison does not raise. *)
Definition is_positive (c : cell) : bool :=
  match gt_zero c with
  | Ok b => b
  | Raise _ => false
  end.

(** Every character of the text satisfies the test. *)
Fixpoint all_chars (q : ascii -> bool) (s : string) : bool :=
  match s with
  | EmptyString => true
  | String c s' => q c && all_chars q s'
  end.


(** Capitalisation word by word, a word being what whitespace delimits:
    the first letter of each word is upper case, its other letters are lower
    case.  The flag records that the word already has a letter. *)
Fixpoint words_titled_from (seen_letter : bool) (s : string) : bool :=
  match s with
  | EmptyString => true
  | String c s' =>
      if PyStr.is_space c then words_titled_from false s'
      else if PyStr.is_cased c
           then (if seen_letter then PyStr.is_lower c else PyStr.is_upper c)
                && words_titled_from true s'
           else words_titled_from seen_letter s'
  end.

Definition words_titled (s : string) : bool := words_titled_from false s.

(** Capitalisation run by run, a word being a maximal run of letters: a
    letter is upper case when no letter stands before it and lower case
    otherwise. *)
Fixpoint runs_titled_from (after_letter : bool) (s : string) : bool :=
  match s with
  | EmptyString => true
  | String c s' =>
      (if PyStr.is_cased c
       then (if after_letter then PyStr.is_lower c else PyStr.is_upper c)
       else true)
      && runs_titled_from (PyStr.is_cased c) s'
  end.

Definition runs_titled (s : string) : bool := runs_titled_from false s.

(** A category text as the normalizer leaves it: lower case, whitespace only
    as single spaces, and holding one of the four search words only when it
    is the canonical label of that word. *)
Definition in_vocabulary (t : string) : Prop :=
  PyStr.lower t = t /\
  PyStr.collapse_ws t = t /\
  (PyStr.contains "office" t = true -> t = "office") /\
  (PyStr.contains "electronic" t = true -> t = "electronics") /\
  (PyStr.contains "kitchen" t = true -> t = "kitchen") /\
  (PyStr.contains "fitness" t = true -> t = "fitness").

(** A text without double quotes around it, once its surrounding whitespace
    is stripped. *)
Definition unquoted (s : string) : Prop :=
  PyStr.strip_char PyStr.dquote (PyStr.strip s) = PyStr.strip s.

Section RowMaps.
Context {pandas : PandasScalars}.

(** The rows [dropna] keeps for the subset [[p; q]]. *)
Definition both_present (p q : nat) (r : row) : bool :=
  negb (isna (at_col p r)) && negb (isna (at_col q r)).

(** The row map of the numeric half of the stage. *)
Definition coerce_row (p q : nat) (r : row) : row :=
  update_nth q to_numeric_coerce (update_nth p to_numeric_coerce r).

(** The row map of the text half of the stage. *)
Definition prodname_row (df : DataFrame) (r : row) : row :=
  match select "prodname" df with
  | Series i => update_nth i prodname_value r
  | _ => r
  end.

(** What a stage that maps the column [label] with [f] does to a row: the
    cell of that column is mapped when the label selects one column. *)
Definition label_row (label : string) (f : cell -> cell) (df : DataFrame) (r : row) : row :=
  match select label df with
  | Series i => update_nth i f r
  | _ => r
  end.

(** The five cell conversions of the pipeline on one row, in stage order. *)
Definition cleaned_row (df : DataFrame) (r : row) : row :=
  label_row "qty" to_numeric_coerce df
    (label_row "price" to_numeric_coerce df
       (label_row "prodname" prodname_value df
          (label_row "date_sold" to_datetime_coerce df
             (label_row "category" category_value df r)))).

(** A list of labelled cell conversions on one row, first to last. *)
Definition run_label_rows (df : DataFrame) (stages : list (string * (cell -> cell)))
    (r : row) : row :=
  fold_left (fun acc s => label_row (fst s) (snd s) df acc) stages r.

(** The columns the pipeline writes. *)
Definition pipeline_stages : list (string * (cell -> cell)) :=
  [ ("category", category_value); ("date_sold", to_datetime_coerce);
    ("prodname", prodname_value); ("price", to_numeric_coerce);
    ("qty", to_numeric_coerce) ].

(** The row has a date, when there is a date_sold column. *)
Definition date_present (df : DataFrame) (r : row) : bool :=
  match select "date_sold" df with
  | Series i => negb (isna (at_col i r))
  | _ => true
  end.

(** The row's price and qty are numbers greater than zero. *)
Definition positive_row (df : DataFrame) (r : row) : bool :=
  match select "price" df, select "qty" df with
  | Series p, Series q => is_positive (at_col p r) && is_positive (at_col q r)
  | _, _ => false
  end.


(** The rows that are not marked as duplicated. *)
Definition keep_first (rs : list row) : list row :=
  take_mask (map negb (duplicated rs)) rs.

End RowMaps.

(* ================================================================= *)
(** ** Properties *)

(** A fact about one character is settled on the 256 characters. *)
Ltac char_cases c := destruct c as [[] [] [] [] [] [] [] []].

Section StringFacts.
Import PyStr.

Lemma rstrip_by_fixed p s : rstrip_by p (rstrip_by p s) = rstrip_by p s.
Proof.
  induction s as [|c s IH]; simpl; [reflexivity|].
  destruct (rstrip_by p s) as [|d r] eqn:E.
  - destruct (p c) eqn:Pc; simpl; [reflexivity | now rewrite Pc].
  - simpl in *. now rewrite IH.
Qed.

Lemma lstrip_by_fixed p s : lstrip_by p (lstrip_by p s) = lstrip_by p s.
Proof.
  induction s as [|c s IH]; simpl; [reflexivity|].
  destruct (p c) eqn:Pc; [exact IH | simpl; now rewrite Pc].
Qed.

(** Stripping on the right keeps a string that has nothing to strip on the
    left that way. *)
Lemma lstrip_rstrip_by p s :
  lstrip_by p s = s -> lstrip_by p (rstrip_by p s) = rstrip_by p s.
Proof.
  destruct s as [|c s]; simpl; [reflexivity|].
  destruct (p c) eqn:Pc.
  - intros H. exfalso.
    assert (L : forall t, String.length (lstrip_by p t) <= String.length t).
    { induction t as [|d t IHt]; simpl; [lia|]. destruct (p d); simpl; lia. }
    specialize (L s). rewrite H in L. simpl in L. lia.
  - intros _. destruct (rstrip_by p s); simpl; now rewrite Pc.
Qed.

Lemma strip_by_lfixed p s : lstrip_by p (strip_by p s) = strip_by p s.
Proof. apply lstrip_rstrip_by, lstrip_by_fixed. Qed.

Lemma strip_by_rfixed p s : rstrip_by p (strip_by p s) = strip_by p s.
Proof. apply rstrip_by_fixed. Qed.

(** A character map that never produces a strippable character from one
    that is not leaves both ends of a stripped string in place. *)
Lemma lstrip_by_map_chars p g s :
  (forall c, p c = false -> p (g c) = false) ->
  lstrip_by p s = s -> lstrip_by p (map_chars g s) = map_chars g s.
Proof.
  intros G. destruct s as [|c s]; simpl; [reflexivity|].
  destruct (p c) eqn:Pc.
  - intros H. exfalso.
    assert (L : forall t, String.length (lstrip_by p t) <= String.length t).
    { induction t as [|d t IHt]; simpl; [lia|]. destruct (p d); simpl; lia. }
    specialize (L s). rewrite H in L. simpl in L. lia.
  - intros _. now rewrite (G c Pc).
Qed.

Lemma map_chars_empty g s : map_chars g s = EmptyString -> s = EmptyString.
Proof. destruct s; simpl; [reflexivity | discriminate]. Qed.

Lemma rstrip_by_map_chars p g s :
  (forall c, p c = false -> p (g c) = false) ->
  rstrip_by p s = s -> rstrip_by p (map_chars g s) = map_chars g s.
Proof.
  intros G. induction s as [|c s IH]; simpl; [reflexivity|].
  destruct (rstrip_by p s) as [|d r] eqn:E.
  - destruct (p c) eqn:Pc; [discriminate|].
    intros H. injection H as <-. simpl. now rewrite (G c Pc).
  - intros H. injection H as H. rewrite H in IH. rewrite (IH eq_refl).
    destruct (map_chars g s) eqn:M; [|reflexivity].
    apply map_chars_empty in M. subst s. discriminate.
Qed.

Lemma strip_by_map_chars p g s :
  (forall c, p c = false -> p (g c) = false) ->
  strip_by p (map_chars g (strip_by p s)) = map_chars g (strip_by p s).
Proof.
  intros G. unfold strip_by at 1.
  rewrite (lstrip_by_map_chars p g _ G (strip_by_lfixed p s)).
  apply (rstrip_by_map_chars p g _ G (strip_by_rfixed p s)).
Qed.

Lemma map_chars_compose f g s :
  map_chars f (map_chars g s) = map_chars (fun c => f (g c)) s.
Proof. induction s as [|c s IH]; simpl; [reflexivity | now rewrite IH]. Qed.

Lemma map_chars_ext f g s :
  (forall c, f c = g c) -> map_chars f s = map_chars g s.
Proof. intros E. induction s as [|c s IH]; simpl; [reflexivity | now rewrite E, IH]. Qed.

Lemma name_char_not_space c : is_space c = false -> is_space (name_char c) = false.
Proof. char_cases c; intros H; try discriminate H; reflexivity. Qed.

Lemma name_char_fixed c : name_char (name_char c) = name_char c.
Proof. char_cases c; reflexivity. Qed.

Lemma clean_name_chars s : clean_name s = map_chars name_char (strip s).
Proof. unfold clean_name, replace_char, lower. rewrite map_chars_compose. reflexivity. Qed.

Lemma clean_name_fixed s : clean_name (clean_name s) = clean_name s.
Proof.
  rewrite (clean_name_chars (clean_name s)), (clean_name_chars s).
  unfold strip. rewrite (strip_by_map_chars is_space name_char s name_char_not_space).
  rewrite map_chars_compose. apply map_chars_ext, name_char_fixed.
Qed.

End StringFacts.

(** ** The column normalizer *)

(** C6. [clean_column_names] is idempotent: cleaning the labels of a frame
    whose labels are already cleaned gives the same frame, for every input
    frame. *)
Theorem clean_column_names_idempotent (df : DataFrame) :
  clean_column_names (clean_column_names df) = clean_column_names df.
Proof.
  unfold clean_column_names; simpl. f_equal.
  rewrite map_map. apply map_ext. intros name. apply clean_name_fixed.
Qed.

(* ================================================================= *)
(** ** Frames: labels, cells and row selection *)

Section FrameFacts.

Lemma positions_spec label cols k i :
  In i (positions label cols k) <->
  k <= i /\ nth_error cols (i - k) = Some label.
Proof.
  revert k. induction cols as [|c cols IH]; intros k; simpl.
  - split; [tauto|]. intros [_ H]. destruct (i - k); discriminate.
  - destruct (String.eqb_spec c label) as [->|Ne]; simpl; rewrite IH.
    + split.
      * intros [<-|[Hk Hn]].
        -- split; [lia|]. now rewrite Nat.sub_diag.
        -- split; [lia|]. replace (i - k) with (S (i - S k)) by lia. exact Hn.
      * intros [Hk Hn]. destruct (i - k) as [|m] eqn:E.
        -- left. lia.
        -- right. split; [lia|]. replace (i - S k) with m by lia. exact Hn.
    + split.
      * intros [Hk Hn]. split; [lia|].
        replace (i - k) with (S (i - S k)) by lia. exact Hn.
      * intros [Hk Hn]. destruct (i - k) as [|m] eqn:E.
        -- simpl in Hn. congruence.
        -- split; [lia|]. replace (i - S k) with m by lia. exact Hn.
Qed.

Lemma select_series_label label df i :
  select label df = Series i -> nth_error (columns df) i = Some label.
Proof.
  unfold select. destruct (positions label (columns df) 0) as [|j [|? ?]] eqn:E;
    try discriminate.
  intros H. injection H as <-.
  assert (In j (positions label (columns df) 0)) as Hin by (rewrite E; now left).
  apply positions_spec in Hin. now rewrite Nat.sub_0_r in Hin.
Qed.

Lemma select_series_bound label df i :
  select label df = Series i -> i < length (columns df).
Proof.
  intros H. apply select_series_label in H.
  apply nth_error_Some. congruence.
Qed.

Lemma select_absent label df :
  select label df = Absent <-> ~ In label (columns df).
Proof.
  unfold select. split.
  - destruct (positions label (columns df) 0) as [|j [|? ?]] eqn:E; try discriminate.
    intros _ Hin. apply In_nth_error in Hin as [n Hn].
    assert (In n (positions label (columns df) 0)) as Hp.
    { apply positions_spec. split; [lia|]. now rewrite Nat.sub_0_r. }
    now rewrite E in Hp.
  - intros Hn. destruct (positions label (columns df) 0) as [|j l] eqn:E; [reflexivity|].
    exfalso. apply Hn.
    assert (In j (positions label (columns df) 0)) as Hp by (rewrite E; now left).
    apply positions_spec in Hp as [_ Hp]. eapply nth_error_In, Hp.
Qed.

Lemma select_columns label df df' :
  columns df' = columns df -> select label df' = select label df.
Proof. unfold select. now intros ->. Qed.

Lemma select_series_distinct l1 l2 df i j :
  l1 <> l2 -> select l1 df = Series i -> select l2 df = Series j -> i <> j.
Proof.
  intros Ne H1 H2 ->. apply select_series_label in H1, H2. congruence.
Qed.

(** In a frame whose labels are all different, a label that occurs selects
    a Series. *)
Lemma positions_lower_bound label cols k i :
  In i (positions label cols k) -> k <= i.
Proof. intros H. now apply positions_spec in H. Qed.

Lemma select_nodup label df :
  NoDup (columns df) -> In label (columns df) ->
  exists i, select label df = Series i.
Proof.
  intros Hnd Hin. unfold select.
  destruct (positions label (columns df) 0) as [|i [|j l]] eqn:E.
  - exfalso. apply In_nth_error in Hin as [n Hn].
    assert (In n (positions label (columns df) 0)) as Hp.
    { apply positions_spec. split; [lia|]. now rewrite Nat.sub_0_r. }
    now rewrite E in Hp.
  - now exists i.
  - exfalso.
    assert (Hi : In i (positions label (columns df) 0)) by (rewrite E; now left).
    assert (Hj : In j (positions label (columns df) 0)) by (rewrite E; right; now left).
    apply positions_spec in Hi as [_ Hi], Hj as [_ Hj].
    rewrite Nat.sub_0_r in Hi, Hj.
    assert (i <> j) as Hne.
    { clear Hi Hj Hin Hnd. revert E. generalize 0 as k. generalize (columns df) as cols.
      induction cols as [|c cols IH]; intros k; simpl; [discriminate|].
      destruct (String.eqb c label).
      - intros H. injection H as <- H.
        assert (In j (positions label cols (S k))) as Hj' by (rewrite H; now left).
        apply positions_lower_bound in Hj'. lia.
      - apply IH. }
    apply Hne. eapply NoDup_nth_error; eauto.
    + apply nth_error_Some. congruence.
    + congruence.
Qed.

Lemma select_nodup_not_frame label df :
  NoDup (columns df) -> select label df <> Frame.
Proof.
  intros Hnd. destruct (in_dec string_dec label (columns df)) as [Hin|Hout].
  - destruct (select_nodup label df Hnd Hin) as [i ->]. discriminate.
  - apply select_absent in Hout. rewrite Hout. discriminate.
Qed.

(** *** Cells of an updated row *)

Lemma update_nth_length i f r : length (update_nth i f r) = length r.
Proof.
  revert i. induction r as [|c r IH]; intros [|i]; simpl; auto.
Qed.

Lemma at_col_update_same i f r :
  i < length r -> at_col i (update_nth i f r) = f (at_col i r).
Proof.
  unfold at_col. revert i. induction r as [|c r IH]; intros [|i]; simpl; intros H;
    try lia; [reflexivity|]. apply IH. lia.
Qed.

Lemma at_col_update_other i j f r :
  i <> j -> at_col j (update_nth i f r) = at_col j r.
Proof.
  unfold at_col. revert i j. induction r as [|c r IH]; intros [|i] [|j] H; simpl;
    try reflexivity; try congruence. apply IH. congruence.
Qed.


Lemma at_col_short i r : length r <= i -> at_col i r = NA.
Proof. intros H. unfold at_col. now apply nth_overflow. Qed.

(** *** Row selection by a mask *)

Lemma subsequence_nil {A} (l : list A) : Subsequence [] l.
Proof. induction l; constructor; assumption. Qed.

Lemma take_mask_subsequence {A} (mask : list bool) (l : list A) :
  Subsequence (take_mask mask l) l.
Proof.
  revert mask. induction l as [|a l IH]; intros [|b mask]; simpl;
    try apply subsequence_nil.
  destruct b; constructor; apply IH.
Qed.

Lemma filter_subsequence {A} (p : A -> bool) (l : list A) :
  Subsequence (filter p l) l.
Proof.
  induction l as [|a l IH]; simpl; [constructor|].
  destruct (p a); constructor; exact IH.
Qed.

Lemma subsequence_in {A} (sub l : list A) a :
  Subsequence sub l -> In a sub -> In a l.
Proof.
  induction 1; simpl; intros H'; auto.
  - destruct H'; auto.
Qed.

Lemma take_mask_map {A} (p : A -> bool) (l : list A) :
  take_mask (map p l) l = filter p l.
Proof.
  induction l as [|a l IH]; simpl; [reflexivity|].
  destruct (p a); now rewrite IH.
Qed.

End FrameFacts.

(* ================================================================= *)
(** ** What each stage does to a frame *)

Section StageFacts.
Context {pandas : PandasScalars}.

Lemma dropna_one i df :
  rows (dropna [i] df) = filter (fun r => negb (isna (at_col i r))) (rows df).
Proof.
  simpl. apply filter_ext. intros r. now rewrite orb_false_r.
Qed.

Lemma clean_dates_series df i :
  select "date_sold" df = Series i ->
  clean_dates df = Ok (dropna [i] (map_column i to_datetime_coerce df)).
Proof. unfold clean_dates. now intros ->. Qed.

Lemma to_datetime_coerce_cases c :
  to_datetime_coerce c = VNaT \/ exists t, to_datetime_coerce c = VTime t.
Proof.
  unfold to_datetime_coerce.
  destruct c as [s|x|t|]; eauto;
    destruct (isna _); eauto; destruct (parse_datetime _); eauto.
Qed.





(** *** [handle_missing_values] *)

Lemma to_numeric_coerce_numeric c : exists x, to_numeric_coerce c = VNum x.
Proof.
  destruct c as [s|x|t|]; simpl; eauto.
  - destruct (parse_numeric (VStr s)); unfold NA; eauto.
  - destruct (parse_numeric (VTime t)); unfold NA; eauto.
  - destruct (parse_numeric VNaT); unfold NA; eauto.
Qed.


Lemma coerce_and_drop_series df p q :
  select "price" df = Series p -> select "qty" df = Series q ->
  coerce_and_drop df =
  Ok {| columns := columns df;
        rows := filter (both_present p q) (map (coerce_row p q) (rows df)) |}.
Proof.
  intros Hp Hq. unfold coerce_and_drop, coerce_numeric. rewrite Hp. simpl.
  rewrite (select_columns "qty" df (map_column p to_numeric_coerce df) eq_refl), Hq.
  simpl. f_equal. unfold dropna, map_column; simpl. f_equal.
  rewrite map_map. apply filter_ext. intros r. unfold both_present.
  now rewrite orb_false_r, negb_orb.
Qed.

Lemma coerce_and_drop_ok df out :
  coerce_and_drop df = Ok out ->
  exists p q, select "price" df = Series p /\ select "qty" df = Series q.
Proof.
  unfold coerce_and_drop, coerce_numeric.
  destruct (select "price" df) as [|p|] eqn:Hp; simpl; try discriminate.
  rewrite (select_columns "qty" df (map_column p to_numeric_coerce df) eq_refl).
  destruct (select "qty" df) as [|q|] eqn:Hq; simpl; try discriminate.
  eauto.
Qed.


Lemma clean_prodname_ok df :
  select "prodname" df <> Frame ->
  clean_prodname df =
  Ok {| columns := columns df; rows := map (prodname_row df) (rows df) |}.
Proof.
  unfold clean_prodname, prodname_row.
  destruct (select "prodname" df); intros H; try congruence.
  - destruct df as [cols rs]. simpl. now rewrite map_id.
  - reflexivity.
Qed.

Lemma clean_prodname_inv df out :
  clean_prodname df = Ok out -> select "prodname" df <> Frame.
Proof. unfold clean_prodname. destruct (select "prodname" df); congruence. Qed.

Lemma handle_missing_values_series df p q :
  select "prodname" df <> Frame ->
  select "price" df = Series p -> select "qty" df = Series q ->
  handle_missing_values df =
  Ok {| columns := columns df;
        rows := filter (both_present p q)
                  (map (fun r => coerce_row p q (prodname_row df r)) (rows df)) |}.
Proof.
  intros Hn Hp Hq. unfold handle_missing_values.
  rewrite (clean_prodname_ok df Hn). simpl.
  rewrite (coerce_and_drop_series _ p q); simpl; [now rewrite map_map| |].
  - now rewrite <- Hp.
  - now rewrite <- Hq.
Qed.

Lemma handle_missing_values_inv df out :
  handle_missing_values df = Ok out ->
  exists p q, select "prodname" df <> Frame /\
              select "price" df = Series p /\ select "qty" df = Series q.
Proof.
  unfold handle_missing_values. intros H.
  destruct (clean_prodname df) as [df1|e] eqn:E; simpl in H; [|discriminate].
  pose proof (clean_prodname_inv df df1 E) as Hn.
  rewrite (clean_prodname_ok df Hn) in E. injection E as <-.
  apply coerce_and_drop_ok in H as (p & q & Hp & Hq).
  exists p, q. auto.
Qed.

End StageFacts.

(* ================================================================= *)
(** ** The row validator *)

Section ValidatorFacts.

Lemma gt_zero_positive c : gt_zero c = Ok true <-> positive c.
Proof.
  destruct c as [s|[z|f]|t|]; simpl; try (split; [discriminate|tauto]).
  - rewrite <- Z.ltb_lt. split; [now intros [= ->] | now intros ->].
  - split; [now intros [= ->] | now intros ->].
Qed.

Lemma is_positive_positive c : is_positive c = true <-> positive c.
Proof.
  rewrite <- gt_zero_positive. unfold is_positive.
  destruct (gt_zero c) as [b|e]; split; try congruence; discriminate.
Qed.

Lemma positive_numeric c : positive c -> exists x, c = VNum x.
Proof. destruct c; simpl; try tauto. eauto. Qed.

(** The missing marker is not greater than zero. *)
Lemma missing_not_positive c : isna c = true -> is_positive c = false.
Proof.
  destruct c as [s|[z|f]|t|]; simpl; try discriminate; try reflexivity.
  destruct f; try discriminate. reflexivity.
Qed.

Lemma positive_present c : positive c -> isna c = false.
Proof.
  intros H. apply is_positive_positive in H.
  destruct (isna c) eqn:E; [|reflexivity].
  apply missing_not_positive in E. congruence.
Qed.

Lemma mapM_ok {A} (f : A -> result bool) l m :
  mapM f l = Ok m ->
  m = map (fun a => match f a with Ok b => b | Raise _ => false end) l.
Proof.
  revert m. induction l as [|a l IH]; simpl; intros m.
  - now intros [= <-].
  - destruct (f a) as [b|e]; simpl; [|discriminate].
    destruct (mapM f l) as [bs|e]; simpl; [|discriminate].
    intros [= <-]. now rewrite (IH bs eq_refl).
Qed.

Lemma mapM_defined {A} (f : A -> result bool) l :
  Forall (fun a => exists b, f a = Ok b) l -> exists m, mapM f l = Ok m.
Proof.
  induction 1 as [|a l [b Hb] _ [m Hm]]; simpl; [eauto|].
  rewrite Hb, Hm. simpl. eauto.
Qed.

Lemma mask_and_map {A} (g h : A -> bool) l :
  mask_and (map g l) (map h l) = map (fun a => g a && h a) l.
Proof. induction l as [|a l IH]; simpl; [reflexivity | now rewrite IH]. Qed.

Lemma mask_gt_zero_ok label df m :
  mask_gt_zero label df = Ok m ->
  exists i, select label df = Series i /\
            m = map (fun r => is_positive (at_col i r)) (rows df).
Proof.
  unfold mask_gt_zero. destruct (select label df) as [|i|]; try discriminate.
  intros H. exists i. split; [reflexivity|]. now apply mapM_ok in H.
Qed.

(** The rows [remove_invalid_rows] keeps, when it returns. *)
Lemma remove_invalid_rows_ok df out :
  remove_invalid_rows df = Ok out ->
  exists p q,
    select "price" df = Series p /\ select "qty" df = Series q /\
    columns out = columns df /\
    rows out = filter (fun r => is_positive (at_col p r) && is_positive (at_col q r))
                      (rows df).
Proof.
  unfold remove_invalid_rows. intros H.
  destruct (mask_gt_zero "price" df) as [mp|e] eqn:Ep; simpl in H; [|discriminate].
  destruct (mask_gt_zero "qty" df) as [mq|e] eqn:Eq; simpl in H; [|discriminate].
  injection H as <-.
  apply mask_gt_zero_ok in Ep as (p & Hp & ->), Eq as (q & Hq & ->).
  exists p, q. simpl. repeat split; auto.
  rewrite mask_and_map. apply take_mask_map.
Qed.

(** It returns on every frame whose price and qty cells are numbers. *)
Lemma remove_invalid_rows_defined df p q :
  select "price" df = Series p -> select "qty" df = Series q ->
  Forall (fun r => (exists x, at_col p r = VNum x) /\ (exists y, at_col q r = VNum y))
         (rows df) ->
  exists out, remove_invalid_rows df = Ok out.
Proof.
  intros Hp Hq Hnum. unfold remove_invalid_rows, mask_gt_zero. rewrite Hp, Hq.
  destruct (mapM_defined (fun r => gt_zero (at_col p r)) (rows df)) as [mp ->].
  { eapply Forall_impl; [|exact Hnum]. intros r [[x ->] _]. destruct x; simpl; eauto. }
  destruct (mapM_defined (fun r => gt_zero (at_col q r)) (rows df)) as [mq ->].
  { eapply Forall_impl; [|exact Hnum]. intros r [_ [y ->]]. destruct y; simpl; eauto. }
  simpl. eauto.
Qed.

End ValidatorFacts.

(* ================================================================= *)
(** ** The deduplicator *)

Section DuplicateFacts.


Lemma row_in_false r seen : row_in r seen = false <-> ~ In (row_key r) seen.
Proof.
  unfold row_in. destruct (in_dec row_key_eq_dec (row_key r) seen);
    split; auto; try discriminate; tauto.
Qed.

(** A row that is left was in the frame, and no row of its values was seen
    before. *)
Lemma kept_in seen rs r :
  In r (take_mask (map negb (duplicated_from seen rs)) rs) ->
  In r rs /\ ~ In (row_key r) seen.
Proof.
  revert seen. induction rs as [|a rs IH]; intros seen; simpl; [tauto|].
  destruct (row_in a seen) eqn:E; simpl.
  - intros H. apply IH in H. tauto.
  - apply row_in_false in E. intros [<-|H]; [tauto|].
    apply IH in H. simpl in H. tauto.
Qed.


Lemma kept_nodup seen rs :
  NoDup (map row_key (take_mask (map negb (duplicated_from seen rs)) rs)).
Proof.
  revert seen. induction rs as [|a rs IH]; intros seen; simpl; [constructor|].
  destruct (row_in a seen) eqn:E; simpl; [apply IH|].
  constructor; [|apply IH].
  intros H. apply in_map_iff in H as (r & Hk & Hr).
  apply kept_in in Hr as [_ Hr]. apply Hr. simpl. now left.
Qed.


Lemma drop_duplicates_columns df : columns (drop_duplicates df) = columns df.
Proof. unfold drop_duplicates. destruct (columns df) eqn:E; simpl; congruence. Qed.

Lemma drop_duplicates_subsequence df :
  Subsequence (rows (drop_duplicates df)) (rows df).
Proof.
  unfold drop_duplicates. destruct (columns df) eqn:E; simpl.
  - replace (rows df) with (filter (fun _ => true) (rows df)) at 1.
    + apply filter_subsequence.
    + induction (rows df); simpl; congruence.
  - apply take_mask_subsequence.
Qed.

Lemma drop_duplicates_rows df :
  columns df <> [] ->
  rows (drop_duplicates df) = take_mask (map negb (duplicated (rows df))) (rows df).
Proof. unfold drop_duplicates. destruct (columns df) eqn:E; [congruence | reflexivity]. Qed.



End DuplicateFacts.

(* ================================================================= *)
(** ** Rows through the stages *)

Section PipelineFacts.
Context {pandas : PandasScalars}.

Lemma clean_categories_columns df out :
  clean_categories df = Ok out -> columns out = columns df.
Proof.
  unfold clean_categories. destruct (select "category" df); intros [= <-]; reflexivity.
Qed.

Lemma clean_dates_columns df out :
  clean_dates df = Ok out -> columns out = columns df.
Proof.
  unfold clean_dates. destruct (select "date_sold" df); intros [= <-]; reflexivity.
Qed.

Lemma handle_missing_values_ok df out :
  handle_missing_values df = Ok out ->
  exists p q,
    select "prodname" df <> Frame /\
    select "price" df = Series p /\ select "qty" df = Series q /\
    columns out = columns df /\
    rows out = filter (both_present p q)
                 (map (fun r => coerce_row p q (prodname_row df r)) (rows df)).
Proof.
  intros H. destruct (handle_missing_values_inv df out H) as (p & q & Hn & Hp & Hq).
  rewrite (handle_missing_values_series df p q Hn Hp Hq) in H. injection H as <-.
  exists p, q. auto.
Qed.

Lemma prodname_row_length df r : length (prodname_row df r) = length r.
Proof.
  unfold prodname_row. destruct (select "prodname" df); auto using update_nth_length.
Qed.

Lemma coerce_row_length p q r : length (coerce_row p q r) = length r.
Proof. unfold coerce_row. now rewrite !update_nth_length. Qed.


Lemma at_col_coerce_row p q i r :
  i <> p -> i <> q -> at_col i (coerce_row p q r) = at_col i r.
Proof.
  intros Hp Hq. unfold coerce_row.
  rewrite !at_col_update_other; auto.
Qed.


(** The numeric cells of a coerced row are numbers, whatever its length. *)
Lemma coerce_row_numeric p q i r :
  i = p \/ i = q -> exists x, at_col i (coerce_row p q r) = VNum x.
Proof.
  intros Hi. unfold coerce_row.
  destruct (Nat.lt_ge_cases i (length r)) as [Hlt|Hge].
  - destruct (Nat.eq_dec i q) as [->|Hq].
    + rewrite at_col_update_same by (now rewrite update_nth_length).
      apply to_numeric_coerce_numeric.
    + destruct Hi as [-> | ->]; [|congruence].
      rewrite at_col_update_other by congruence.
      rewrite at_col_update_same by assumption.
      apply to_numeric_coerce_numeric.
  - rewrite at_col_short by (now rewrite !update_nth_length).
    unfold NA. eauto.
Qed.

(** The five stages behind a successful run. *)
Lemma main_stages df_raw out :
  main df_raw = Ok out ->
  exists d1 d2 d3 d4,
    clean_categories (clean_column_names df_raw) = Ok d1 /\
    clean_dates d1 = Ok d2 /\
    handle_missing_values d2 = Ok d3 /\
    remove_invalid_rows d3 = Ok d4 /\
    out = drop_duplicates d4.
Proof.
  unfold main. intros H.
  destruct (clean_categories (clean_column_names df_raw)) as [d1|] eqn:E1; simpl in H; [|discriminate].
  destruct (clean_dates d1) as [d2|] eqn:E2; simpl in H; [|discriminate].
  destruct (handle_missing_values d2) as [d3|] eqn:E3; simpl in H; [|discriminate].
  destruct (remove_invalid_rows d3) as [d4|] eqn:E4; simpl in H; [|discriminate].
  injection H as <-. exists d1, d2, d3, d4. auto.
Qed.

Lemma main_columns df_raw out :
  main df_raw = Ok out -> columns out = map clean_name (columns df_raw).
Proof.
  intros H. destruct (main_stages _ _ H) as (d1 & d2 & d3 & d4 & H1 & H2 & H3 & H4 & ->).
  rewrite drop_duplicates_columns.
  apply remove_invalid_rows_ok in H4 as (p & q & _ & _ & C4 & _).
  apply handle_missing_values_ok in H3 as (p' & q' & _ & _ & _ & C3 & _).
  rewrite C4, C3.
  rewrite (clean_dates_columns _ _ H2), (clean_categories_columns _ _ H1).
  reflexivity.
Qed.

(** The run succeeds whenever the cleaned labels name price and qty once
    each and none of the optional columns twice. *)
Lemma main_defined df_raw p q :
  let df := clean_column_names df_raw in
  select "price" df = Series p -> select "qty" df = Series q ->
  select "category" df <> Frame -> select "date_sold" df <> Frame ->
  select "prodname" df <> Frame ->
  exists out, main df_raw = Ok out.
Proof.
  intros df Hp Hq Hc Hd Hn. unfold main. fold df.
  assert (exists d1, clean_categories df = Ok d1 /\ columns d1 = columns df) as (d1 & -> & C1).
  { unfold clean_categories. destruct (select "category" df); try congruence; eauto. }
  simpl.
  assert (exists d2, clean_dates d1 = Ok d2 /\ columns d2 = columns df) as (d2 & -> & C2).
  { unfold clean_dates. rewrite (select_columns _ _ _ C1).
    destruct (select "date_sold" df); try congruence; eauto. }
  simpl.
  rewrite (handle_missing_values_series d2 p q).
  2:{ now rewrite (select_columns _ _ _ C2). }
  2:{ now rewrite (select_columns _ _ _ C2). }
  2:{ now rewrite (select_columns _ _ _ C2). }
  simpl.
  match goal with |- context [remove_invalid_rows ?d] => set (d3 := d) end.
  destruct (remove_invalid_rows_defined d3 p q) as [d4 ->].
  - rewrite (select_columns "price" df d3); auto.
  - rewrite (select_columns "qty" df d3); auto.
  - apply Forall_forall. intros r Hin. simpl in Hin.
    apply filter_In in Hin as [Hin _]. apply in_map_iff in Hin as (r0 & <- & _).
    split; apply coerce_row_numeric; auto.
  - simpl. eauto.
Qed.

(** In particular it succeeds on every raw frame whose cleaned labels are
    all different and name price and qty. *)
Lemma main_defined_unique_labels df_raw :
  NoDup (map clean_name (columns df_raw)) ->
  In "price" (map clean_name (columns df_raw)) ->
  In "qty" (map clean_name (columns df_raw)) ->
  exists out, main df_raw = Ok out.
Proof.
  intros Hnd Hp Hq.
  destruct (select_nodup "price" (clean_column_names df_raw) Hnd Hp) as [p Sp].
  destruct (select_nodup "qty" (clean_column_names df_raw) Hnd Hq) as [q Sq].
  apply (main_defined df_raw p q); auto; now apply select_nodup_not_frame.
Qed.

(** *** Row lengths *)

Lemma forall_subsequence {A} (P : A -> Prop) (sub l : list A) :
  Subsequence sub l -> Forall P l -> Forall P sub.
Proof.
  intros Hs Hl. apply Forall_forall. intros a Ha.
  rewrite Forall_forall in Hl. eauto using subsequence_in.
Qed.

Lemma forall_filter {A} (P : A -> Prop) (f : A -> bool) (l : list A) :
  Forall P l -> Forall P (filter f l).
Proof. apply forall_subsequence, filter_subsequence. Qed.

Lemma map_column_lengths n i f df :
  Forall (fun r : row => length r = n) (rows df) ->
  Forall (fun r : row => length r = n) (rows (map_column i f df)).
Proof.
  intros H. simpl. apply Forall_map.
  eapply Forall_impl; [|exact H]. intros r Hr. now rewrite update_nth_length.
Qed.

(** Every stage keeps one cell per column in every row. *)
Lemma main_well_formed df_raw out :
  well_formed df_raw -> main df_raw = Ok out -> well_formed out.
Proof.
  unfold well_formed. intros Hwf H.
  rewrite (main_columns _ _ H), length_map.
  set (n := length (columns df_raw)) in *.
  destruct (main_stages _ _ H) as (d1 & d2 & d3 & d4 & H1 & H2 & H3 & H4 & ->).
  apply (forall_subsequence _ _ _ (drop_duplicates_subsequence d4)).
  apply remove_invalid_rows_ok in H4 as (p & q & _ & _ & _ & ->).
  apply forall_filter.
  apply handle_missing_values_ok in H3 as (p' & q' & _ & _ & _ & _ & ->).
  apply forall_filter, Forall_map.
  assert (W2 : Forall (fun r : row => length r = n) (rows d2)).
  { assert (W1 : Forall (fun r : row => length r = n) (rows d1)).
    { unfold clean_categories in H1.
      destruct (select "category" (clean_column_names df_raw)); inversion H1; subst;
        [exact Hwf | now apply map_column_lengths]. }
    unfold clean_dates in H2.
    destruct (select "date_sold" d1); inversion H2; subst; [exact W1|].
    rewrite dropna_one. now apply forall_filter, map_column_lengths. }
  eapply Forall_impl; [|exact W2].
  intros r Hr. now rewrite coerce_row_length, prodname_row_length.
Qed.


End PipelineFacts.

(** C10. On a frame whose price and qty columns hold numbers, possibly the
    missing marker, [remove_invalid_rows] returns, and it removes every row
    whose price or qty is the missing marker: such a row is not in the
    output, and no price or qty of the output is missing. Nothing is assumed
    about an earlier [dropna]. *)
Theorem remove_invalid_rows_drops_missing (df : DataFrame) (p q : nat) :
  select "price" df = Series p -> select "qty" df = Series q ->
  Forall (fun r => (exists x, at_col p r = VNum x) /\ (exists y, at_col q r = VNum y))
         (rows df) ->
  exists out,
    remove_invalid_rows df = Ok out /\
    (forall r, isna (at_col p r) = true \/ isna (at_col q r) = true ->
               ~ In r (rows out)) /\
    (forall r, In r (rows out) ->
               isna (at_col p r) = false /\ isna (at_col q r) = false).
Proof.
  intros Hp Hq Hnum.
  destruct (remove_invalid_rows_defined df p q Hp Hq Hnum) as [out Hout].
  exists out. split; [exact Hout|].
  apply remove_invalid_rows_ok in Hout as (p' & q' & Hp' & Hq' & _ & Hrows).
  assert (p' = p) as -> by congruence. assert (q' = q) as -> by congruence.
  assert (Hkept : forall r, In r (rows out) ->
            isna (at_col p r) = false /\ isna (at_col q r) = false).
  { intros r Hin. rewrite Hrows in Hin. apply filter_In in Hin as [_ Hpos].
    apply andb_true_iff in Hpos as [P Q].
    split; apply positive_present, is_positive_positive; assumption. }
  split; [|exact Hkept].
  intros r Hna Hin. destruct (Hkept r Hin) as [P Q].
  destruct Hna; congruence.
Qed.

Lemma remove_invalid_rows_drops_missing_witness :
  exists out,
    remove_invalid_rows Sample.numeric = Ok out /\
    (forall r, isna (at_col 0 r) = true \/ isna (at_col 1 r) = true ->
               ~ In r (rows out)) /\
    (forall r, In r (rows out) ->
               isna (at_col 0 r) = false /\ isna (at_col 1 r) = false).
Proof.
  apply (remove_invalid_rows_drops_missing Sample.numeric 0 1);
    [reflexivity | reflexivity |].
  repeat (apply Forall_cons; [split; eexists; reflexivity|]). apply Forall_nil.
Defined.

(* ================================================================= *)
(** ** The pipeline's output *)

(** C1. Whenever the full pipeline returns a table, that table has one
    price and one qty column, and every row of it holds a number greater
    than zero in both. *)
Theorem final_rows_positive {pandas : PandasScalars} (df_raw out : DataFrame) :
  main df_raw = Ok out ->
  exists p q,
    select "price" out = Series p /\ select "qty" out = Series q /\
    forall r, In r (rows out) -> positive (at_col p r) /\ positive (at_col q r).
Proof.
  intros H. destruct (main_stages _ _ H) as (d1 & d2 & d3 & d4 & _ & _ & _ & H4 & ->).
  apply remove_invalid_rows_ok in H4 as (p & q & Hp & Hq & C4 & R4).
  exists p, q.
  assert (C : columns (drop_duplicates d4) = columns d3)
    by (now rewrite drop_duplicates_columns).
  rewrite !(select_columns _ d3 (drop_duplicates d4) C).
  repeat split; auto;
    apply (subsequence_in _ _ _ (drop_duplicates_subsequence d4)) in H0;
    rewrite R4 in H0; apply filter_In in H0 as [_ H0];
    apply andb_true_iff in H0 as [P Q]; now apply is_positive_positive.
Qed.

Lemma final_rows_positive_witness :
  main Sample.raw = Ok Sample.cleaned /\
  exists p q,
    select "price" Sample.cleaned = Series p /\
    select "qty" Sample.cleaned = Series q /\
    forall r, In r (rows Sample.cleaned) ->
              positive (at_col p r) /\ positive (at_col q r).
Proof.
  split; [reflexivity|].
  apply (final_rows_positive Sample.raw Sample.cleaned). reflexivity.
Defined.

(* ================================================================= *)
(** ** The date normalizer *)



(* ================================================================= *)
(** ** The missing-value handler: numbers *)



(* ================================================================= *)
(** ** The deduplicator in the pipeline *)



(* ================================================================= *)
(** ** Optional columns *)

(** C8. A stage whose optional column is not in the frame does nothing for
    it and does not raise for it: [clean_categories] without a category
    column and [clean_dates] without a date_sold column return the frame
    as it is, and [handle_missing_values] without a prodname column is its
    numeric half alone. *)
Theorem optional_columns_absent {pandas : PandasScalars} (df : DataFrame) :
  (~ In "category" (columns df) -> clean_categories df = Ok df) /\
  (~ In "date_sold" (columns df) -> clean_dates df = Ok df) /\
  (~ In "prodname" (columns df) ->
   handle_missing_values df = coerce_and_drop df /\
   forall p q, select "price" df = Series p -> select "qty" df = Series q ->
     handle_missing_values df =
     Ok {| columns := columns df;
           rows := filter (both_present p q) (map (coerce_row p q) (rows df)) |}).
Proof.
  split; [|split].
  - intros H. apply select_absent in H. unfold clean_categories. now rewrite H.
  - intros H. apply select_absent in H. unfold clean_dates. now rewrite H.
  - intros H. apply select_absent in H.
    assert (E : handle_missing_values df = coerce_and_drop df).
    { unfold handle_missing_values, clean_prodname. now rewrite H. }
    split; [exact E|].
    intros p q Hp Hq. rewrite E. now apply coerce_and_drop_series.
Qed.

Lemma optional_columns_absent_witness :
  clean_categories Sample.bare = Ok Sample.bare /\
  clean_dates Sample.bare = Ok Sample.bare /\
  handle_missing_values Sample.bare = Ok Sample.bare_handled.
Proof.
  destruct (@optional_columns_absent Sample.scalars Sample.bare) as (Hc & Hd & Hn).
  assert (Habs : forall label,
            String.eqb label "sku" = false -> String.eqb label "price" = false ->
            String.eqb label "qty" = false -> ~ In label (columns Sample.bare)).
  { intros label H1 H2 H3 [<-|[<-|[<-|[]]]]; discriminate. }
  split; [|split].
  - apply Hc, Habs; reflexivity.
  - apply Hd, Habs; reflexivity.
  - destruct Hn as [_ Hn]; [apply Habs; reflexivity|].
    rewrite (Hn 1 2 eq_refl eq_refl). reflexivity.
Defined.

(* ================================================================= *)
(** ** Search words under stripping, collapsing and lower-casing *)

Section TextFacts.
Import PyStr.













Lemma is_space_lower_char c : is_space (lower_char c) = is_space c.
Proof. char_cases c; reflexivity. Qed.

Lemma dquote_lower_char c : Ascii.eqb dquote (lower_char c) = Ascii.eqb dquote c.
Proof. char_cases c; reflexivity. Qed.

Lemma collapse_from_lower b s :
  collapse_from b (lower s) = lower (collapse_from b s).
Proof.
  unfold lower. revert b. induction s as [|c s IH]; intros b; simpl; [reflexivity|].
  rewrite is_space_lower_char. destruct (is_space c).
  - destruct b; simpl; now rewrite IH.
  - simpl. now rewrite IH.
Qed.




End TextFacts.

(* ================================================================= *)
(** ** The category normalizer *)

Section CategoryFacts.
Context {pandas : PandasScalars}.

Lemma clean_categories_series df i :
  select "category" df = Series i ->
  clean_categories df = Ok (map_column i category_value df).
Proof. unfold clean_categories. now intros ->. Qed.


Lemma missing_text c :
  isna c = true -> astype_str c = "nan" \/ astype_str c = "NaT".
Proof.
  destruct c as [s|[z|f]|t|]; simpl; try discriminate; [|now right].
  destruct f; try discriminate. now left.
Qed.

End CategoryFacts.



(** C9. A missing category is not skipped and does not stay missing:
    [clean_categories] first turns it into text, [nan] for NaN (and [NaT] for
    a missing timestamp), and that text goes through the same cleaning and
    matching as every other value, so the cell ends up holding the text
    [nan] (or [nat]). *)
Theorem missing_category_becomes_text {pandas : PandasScalars} :
  (forall c,
     isna c = true ->
     (astype_str c = "nan" \/ astype_str c = "NaT") /\
     category_value c = VStr (normalize_category (tidy_category (astype_str c))) /\
     (category_value c = VStr "nan" \/ category_value c = VStr "nat") /\
     isna (category_value c) = false) /\
  category_value NA = VStr "nan" /\
  (forall df i k r,
     select "category" df = Series i ->
     nth_error (rows df) k = Some r -> length r = length (columns df) ->
     isna (at_col i r) = true ->
     exists out r',
       clean_categories df = Ok out /\
       nth_error (rows out) k = Some r' /\
       at_col i r' = category_value (at_col i r) /\
       (at_col i r' = VStr "nan" \/ at_col i r' = VStr "nat")).
Proof.
  assert (Cell : forall c, isna c = true ->
            category_value c = VStr "nan" \/ category_value c = VStr "nat").
  { intros c Hc. unfold category_value.
    destruct (missing_text c Hc) as [-> | ->]; [left | right]; reflexivity. }
  split; [|split].
  - intros c Hc. split; [now apply missing_text|]. split; [reflexivity|].
    split; [now apply Cell|]. reflexivity.
  - reflexivity.
  - intros df i k r Hs Hk Hlen Hna.
    exists (map_column i category_value df), (update_nth i category_value r).
    split; [now apply clean_categories_series|].
    split; [simpl; now rewrite nth_error_map, Hk|].
    assert (E : at_col i (update_nth i category_value r) = category_value (at_col i r)).
    { apply at_col_update_same. rewrite Hlen. eapply select_series_bound, Hs. }
    split; [exact E|]. rewrite E. now apply Cell.
Qed.

Lemma missing_category_becomes_text_witness :
  category_value NA = VStr "nan" /\
  exists out r',
    clean_categories (clean_column_names Sample.raw) = Ok out /\
    nth_error (rows out) 6 = Some r' /\
    at_col 1 r' = category_value NA /\
    (at_col 1 r' = VStr "nan" \/ at_col 1 r' = VStr "nat").
Proof.
  destruct (@missing_category_becomes_text Sample.scalars) as (Cell & Nan & Frame_).
  split; [exact Nan|].
  apply (Frame_ (clean_column_names Sample.raw) 1 6
           [VStr "kid's lamp"; NA; VStr "12"; VStr "1"; VStr "2024-02-10"]);
    reflexivity.
Defined.

(* ================================================================= *)
(** ** The missing-value handler: product names *)

Section TitleFacts.
Import PyStr.

Lemma is_cased_upper_char c : is_cased (upper_char c) = is_cased c.
Proof. char_cases c; reflexivity. Qed.

Lemma is_cased_lower_char c : is_cased (lower_char c) = is_cased c.
Proof. char_cases c; reflexivity. Qed.

Lemma is_upper_upper_char c : is_cased c = true -> is_upper (upper_char c) = true.
Proof. char_cases c; intros H; try discriminate H; reflexivity. Qed.

Lemma is_lower_lower_char c : is_cased c = true -> is_lower (lower_char c) = true.
Proof. char_cases c; intros H; try discriminate H; reflexivity. Qed.

Lemma is_space_upper_char c : is_space (upper_char c) = is_space c.
Proof. char_cases c; reflexivity. Qed.

Lemma space_upper_char c : is_space c = true -> upper_char c = c.
Proof. char_cases c; intros H; try discriminate H; reflexivity. Qed.

Lemma space_lower_char c : is_space c = true -> lower_char c = c.
Proof. char_cases c; intros H; try discriminate H; reflexivity. Qed.

Lemma space_not_cased c : is_space c = true -> is_cased c = false.
Proof. char_cases c; intros H; try discriminate H; reflexivity. Qed.

Lemma lower_upper_char c : lower_char (upper_char c) = lower_char c.
Proof. char_cases c; reflexivity. Qed.

Lemma lower_lower_char c : lower_char (lower_char c) = lower_char c.
Proof. char_cases c; reflexivity. Qed.

(** The letter [title_from] writes for [c]. *)
Lemma title_char_cased (b : bool) c :
  is_cased (if b then lower_char c else upper_char c) = is_cased c.
Proof. destruct b; [apply is_cased_lower_char | apply is_cased_upper_char]. Qed.

Lemma title_char_space (b : bool) c :
  is_space (if b then lower_char c else upper_char c) = is_space c.
Proof. destruct b; [apply is_space_lower_char | apply is_space_upper_char]. Qed.

Lemma title_from_runs_titled b s : runs_titled_from b (title_from b s) = true.
Proof.
  revert b. induction s as [|c s IH]; intros b; simpl; [reflexivity|].
  rewrite title_char_cased, IH, andb_true_r.
  destruct (is_cased c) eqn:Cc; [|reflexivity].
  destruct b; [now apply is_lower_lower_char | now apply is_upper_upper_char].
Qed.

Lemma lower_title_from b s : lower (title_from b s) = lower s.
Proof.
  unfold lower. revert b. induction s as [|c s IH]; intros b; simpl; [reflexivity|].
  rewrite IH. f_equal. destruct b; [apply lower_lower_char | apply lower_upper_char].
Qed.

Lemma lstrip_by_fixed_head p c s :
  lstrip_by p (String c s) = String c s -> p c = false.
Proof.
  simpl. destruct (p c); [|reflexivity]. intros H. exfalso.
  assert (L : forall t, String.length (lstrip_by p t) <= String.length t).
  { induction t as [|d t IHt]; simpl; [lia|]. destruct (p d); simpl; lia. }
  specialize (L s). rewrite H in L. simpl in L. lia.
Qed.

Lemma rstrip_by_fixed_cases p c s :
  rstrip_by p (String c s) = String c s ->
  (s = EmptyString /\ p c = false) \/ (s <> EmptyString /\ rstrip_by p s = s).
Proof.
  simpl. destruct (rstrip_by p s) as [|d r] eqn:E.
  - destruct (p c); [discriminate|]. intros [= <-]. now left.
  - intros [= <-]. right. split; [discriminate | reflexivity].
Qed.

Lemma rstrip_by_cons_fixed p c s :
  s <> EmptyString -> rstrip_by p s = s -> rstrip_by p (String c s) = String c s.
Proof. intros Hne H. simpl. rewrite H. destruct s; [congruence | reflexivity]. Qed.

Lemma title_from_nonempty b s : s <> EmptyString -> title_from b s <> EmptyString.
Proof. destruct s; [congruence | discriminate]. Qed.

Lemma lstrip_title_from b s :
  lstrip_by is_space s = s -> lstrip_by is_space (title_from b s) = title_from b s.
Proof.
  destruct s as [|c s]; [reflexivity|]. intros H.
  apply lstrip_by_fixed_head in H. simpl. now rewrite title_char_space, H.
Qed.

Lemma rstrip_title_from b s :
  rstrip_by is_space s = s -> rstrip_by is_space (title_from b s) = title_from b s.
Proof.
  revert b. induction s as [|c s IH]; intros b H; [reflexivity|].
  apply rstrip_by_fixed_cases in H as [[-> Hc]|[Hne Hs]].
  - simpl. now rewrite title_char_space, Hc.
  - cbn [title_from]. apply rstrip_by_cons_fixed; auto using title_from_nonempty.
Qed.

Lemma lstrip_collapse s :
  lstrip_by is_space s = s ->
  lstrip_by is_space (collapse_from false s) = collapse_from false s.
Proof.
  destruct s as [|c s]; [reflexivity|]. intros H.
  apply lstrip_by_fixed_head in H. simpl. rewrite H. simpl. now rewrite H.
Qed.

Lemma collapse_from_nonempty b s :
  s <> EmptyString -> rstrip_by is_space s = s -> collapse_from b s <> EmptyString.
Proof.
  revert b. induction s as [|c s IH]; intros b Hne H; [congruence|].
  simpl. destruct (is_space c) eqn:Sc; [|discriminate].
  apply rstrip_by_fixed_cases in H as [[_ Hc]|[Hs Hr]]; [congruence|].
  destruct b; [now apply IH | discriminate].
Qed.

Lemma rstrip_collapse b s :
  rstrip_by is_space s = s ->
  rstrip_by is_space (collapse_from b s) = collapse_from b s.
Proof.
  revert b. induction s as [|c s IH]; intros b H; [reflexivity|].
  apply rstrip_by_fixed_cases in H as [[-> Hc]|[Hne Hs]].
  - simpl. rewrite Hc. simpl. now rewrite Hc.
  - cbn [collapse_from]. destruct (is_space c).
    + destruct b; [now apply IH|].
      apply rstrip_by_cons_fixed; auto using collapse_from_nonempty.
    + apply rstrip_by_cons_fixed; auto using collapse_from_nonempty.
Qed.

Lemma collapse_from_fixed b s :
  collapse_from b (collapse_from b s) = collapse_from b s.
Proof.
  revert b. induction s as [|c s IH]; intros b; simpl; [reflexivity|].
  destruct (is_space c) eqn:Sc.
  - destruct b; [apply IH|]. simpl. now rewrite IH.
  - simpl. rewrite Sc. now rewrite IH.
Qed.

Lemma collapse_title_from k b s :
  (k = true -> b = false) ->
  collapse_from k (title_from b s) = title_from b (collapse_from k s).
Proof.
  revert k b. induction s as [|c s IH]; intros k b Hkb; simpl; [reflexivity|].
  rewrite title_char_space. destruct (is_space c) eqn:Sc.
  - rewrite (space_not_cased c Sc). destruct k.
    + rewrite (Hkb eq_refl). now apply IH.
    + simpl. rewrite (IH true false) by reflexivity.
      f_equal. now destruct b.
  - simpl. rewrite (IH false (is_cased c)) by discriminate. reflexivity.
Qed.

End TitleFacts.

Section ProdnameFacts.
Context {pandas : PandasScalars}.
Import PyStr.

Lemma prodname_text_stripped s :
  let t := title (collapse_ws (strip s)) in
  strip t = t /\ collapse_ws t = t.
Proof.
  intros t. subst t. unfold title, collapse_ws, strip. split.
  - unfold strip_by at 1.
    rewrite lstrip_title_from by apply lstrip_collapse, strip_by_lfixed.
    apply rstrip_title_from, rstrip_collapse, strip_by_rfixed.
  - rewrite collapse_title_from by discriminate.
    now rewrite collapse_from_fixed.
Qed.

Lemma at_col_prodname df i p q r :
  select "prodname" df = Series i ->
  select "price" df = Series p -> select "qty" df = Series q ->
  length r = length (columns df) ->
  at_col i (coerce_row p q (prodname_row df r)) = prodname_value (at_col i r).
Proof.
  intros Hi Hp Hq Hlen.
  rewrite at_col_coerce_row.
  - unfold prodname_row. rewrite Hi. apply at_col_update_same.
    rewrite Hlen. eapply select_series_bound, Hi.
  - apply (select_series_distinct "prodname" "price" df); auto. discriminate.
  - apply (select_series_distinct "prodname" "qty" df); auto. discriminate.
Qed.

End ProdnameFacts.

(** C7, as stated, fails when a word holds a character that is not a
    letter: in [kid's lamp] the letter after the apostrophe is upper-cased
    although it is not the first letter of its word. *)
Lemma prodname_words_not_titled :
  prodname_value (VStr " kid's   lamp ") = VStr "Kid'S Lamp" /\
  words_titled "Kid'S Lamp" = false /\
  words_titled "Kid's Lamp" = true.
Proof. repeat split. Qed.

(** C7, amended. [handle_missing_values] replaces every cell of the prodname
    column by its text, stripped of surrounding whitespace, with every
    whitespace run collapsed to one space, and title-cased, where a word is
    a maximal run of letters: a letter is upper case when the character
    before it is not a letter and lower case otherwise, and nothing but the
    case of letters changes. *)
Theorem prodname_title_case {pandas : PandasScalars} :
  (forall c,
     let text := PyStr.collapse_ws (PyStr.strip (astype_str c)) in
     let t := PyStr.title text in
     prodname_value c = VStr t /\
     PyStr.strip t = t /\
     PyStr.collapse_ws t = t /\
     runs_titled t = true /\
     PyStr.lower t = PyStr.lower text) /\
  (forall df i p q,
     select "prodname" df = Series i ->
     select "price" df = Series p -> select "qty" df = Series q ->
     exists out,
       handle_missing_values df = Ok out /\
       rows out = filter (both_present p q)
                    (map (fun r => coerce_row p q (prodname_row df r)) (rows df)) /\
       forall r, length r = length (columns df) ->
         at_col i (coerce_row p q (prodname_row df r)) = prodname_value (at_col i r)).
Proof.
  split.
  - intros c text t. split; [reflexivity|].
    destruct (prodname_text_stripped (astype_str c)) as [Hs Hc].
    split; [exact Hs|]. split; [exact Hc|].
    split; [apply title_from_runs_titled | apply lower_title_from].
  - intros df i p q Hi Hp Hq.
    assert (Hn : select "prodname" df <> Frame) by congruence.
    rewrite (handle_missing_values_series df p q Hn Hp Hq).
    eexists. split; [reflexivity|]. split; [reflexivity|].
    intros r Hlen. now apply at_col_prodname.
Qed.

Lemma prodname_title_case_witness :
  prodname_value (VStr " usb-c   hub ") = VStr "Usb-C Hub" /\
  runs_titled "Usb-C Hub" = true /\
  exists out,
    handle_missing_values (clean_column_names Sample.raw) = Ok out /\
    at_col 0 (coerce_row 2 3 (prodname_row (clean_column_names Sample.raw)
                [VStr " standing   desk "; VStr "Office"; VStr "150"; VStr "2";
                 VStr "2024-01-05"]))
    = VStr "Standing Desk".
Proof.
  destruct (@prodname_title_case Sample.scalars) as [Cell Frame_].
  destruct (Cell (VStr " usb-c   hub ")) as (Hv & _ & _ & Hr & _).
  split; [refine (eq_trans Hv _); reflexivity|].
  split; [refine (eq_trans _ Hr); reflexivity|].
  destruct (Frame_ (clean_column_names Sample.raw) 0 2 3 eq_refl eq_refl eq_refl)
    as (out & Hout & _ & Hcell).
  exists out. split; [exact Hout|].
  rewrite (Hcell [VStr " standing   desk "; VStr "Office"; VStr "150"; VStr "2";
                  VStr "2024-01-05"] eq_refl).
  reflexivity.
Defined.

(* ================================================================= *)
(** ** Further properties of the stages *)

(** *** Labels after [clean_column_names] *)

Section LabelFacts.
Import PyStr.

Lemma all_chars_map_chars q g s :
  (forall c, q (g c) = true) -> all_chars q (map_chars g s) = true.
Proof.
  intros G. induction s as [|c s IH]; simpl; [reflexivity|]. now rewrite G, IH.
Qed.

Lemma lower_name_char c : lower_char (name_char c) = name_char c.
Proof. char_cases c; reflexivity. Qed.

Lemma name_char_no_space c : negb (Ascii.eqb (name_char c) " ") = true.
Proof. char_cases c; reflexivity. Qed.

Lemma clean_name_stripped s : strip (clean_name s) = clean_name s.
Proof.
  rewrite clean_name_chars. unfold strip.
  apply strip_by_map_chars, name_char_not_space.
Qed.

Lemma clean_name_lower s : lower (clean_name s) = clean_name s.
Proof.
  rewrite clean_name_chars. unfold lower. rewrite map_chars_compose.
  apply map_chars_ext, lower_name_char.
Qed.

Lemma clean_name_no_space s :
  all_chars (fun c => negb (Ascii.eqb c " ")) (clean_name s) = true.
Proof.
  rewrite clean_name_chars. apply all_chars_map_chars, name_char_no_space.
Qed.

End LabelFacts.

(** X1. [clean_column_names] leaves the rows and the number of columns as
    they are, and every label of its output is stripped of surrounding
    whitespace, has no upper-case letter and has no space. *)
Theorem clean_column_names_labels (df : DataFrame) :
  rows (clean_column_names df) = rows df /\
  length (columns (clean_column_names df)) = length (columns df) /\
  forall label, In label (columns (clean_column_names df)) ->
    PyStr.strip label = label /\
    PyStr.lower label = label /\
    all_chars (fun c => negb (Ascii.eqb c " ")) label = true.
Proof.
  split; [reflexivity|]. split; [apply length_map|].
  intros label Hin. simpl in Hin. apply in_map_iff in Hin as (name & <- & _).
  auto using clean_name_stripped, clean_name_lower, clean_name_no_space.
Qed.

Lemma clean_column_names_labels_witness :
  PyStr.strip "date_sold" = "date_sold" /\
  PyStr.lower "date_sold" = "date_sold" /\
  all_chars (fun c => negb (Ascii.eqb c " ")) "date_sold" = true.
Proof.
  apply (proj2 (proj2 (clean_column_names_labels Sample.raw))).
  simpl. tauto.
Defined.

(** *** When the stages raise *)

Section FailureFacts.
Context {pandas : PandasScalars}.

Lemma clean_categories_inv df out :
  clean_categories df = Ok out -> select "category" df <> Frame.
Proof. unfold clean_categories. destruct (select "category" df); congruence. Qed.

Lemma clean_dates_inv df out :
  clean_dates df = Ok out -> select "date_sold" df <> Frame.
Proof. unfold clean_dates. destruct (select "date_sold" df); congruence. Qed.

(** The labels a successful run has found. *)
Lemma main_labels df_raw out :
  main df_raw = Ok out ->
  let df := clean_column_names df_raw in
  (exists p q, select "price" df = Series p /\ select "qty" df = Series q) /\
  select "category" df <> Frame /\
  select "date_sold" df <> Frame /\
  select "prodname" df <> Frame.
Proof.
  intros H df.
  destruct (main_stages _ _ H) as (d1 & d2 & d3 & d4 & H1 & H2 & H3 & _).
  pose proof (clean_categories_columns _ _ H1) as C1.
  pose proof (clean_dates_columns _ _ H2) as C2.
  assert (C : columns d2 = columns df) by (unfold df; congruence).
  apply clean_categories_inv in H1. apply clean_dates_inv in H2.
  apply handle_missing_values_inv in H3 as (p & q & Hn & Hp & Hq).
  rewrite (select_columns "prodname" _ _ C) in Hn.
  rewrite (select_columns "price" _ _ C) in Hp.
  rewrite (select_columns "qty" _ _ C) in Hq.
  rewrite (select_columns "date_sold" _ _ C1) in H2.
  split; [exists p, q; auto|]. auto.
Qed.

Lemma mapM_raises {A} (f : A -> result bool) l a e0 :
  In a l -> f a = Raise e0 ->
  (forall b e, f b = Raise e -> e = TypeError) ->
  mapM f l = Raise TypeError.
Proof.
  intros Hin Ha Hty. induction l as [|b l IH]; [destruct Hin|].
  simpl. destruct (f b) as [v|e] eqn:Eb; simpl.
  - destruct Hin as [Hb|Hin]; [subst b; rewrite Ha in Eb; discriminate|].
    now rewrite (IH Hin).
  - now rewrite (Hty b e Eb).
Qed.

Lemma gt_zero_raises c e : gt_zero c = Raise e -> e = TypeError.
Proof. destruct c as [s|[z|f]|t|]; simpl; congruence. Qed.

Lemma gt_zero_text c :
  (exists s, c = VStr s) \/ (exists t, c = VTime t) -> gt_zero c = Raise TypeError.
Proof. intros [[s ->]|[t ->]]; reflexivity. Qed.

End FailureFacts.

(** X2. The pipeline returns a table exactly when the cleaned labels name
    price once, qty once, and none of category, date_sold and prodname more
    than once; in every other case it raises. *)
Theorem main_returns_iff {pandas : PandasScalars} (df_raw : DataFrame) :
  let df := clean_column_names df_raw in
  (exists out, main df_raw = Ok out) <->
  (exists p q, select "price" df = Series p /\ select "qty" df = Series q) /\
  select "category" df <> Frame /\
  select "date_sold" df <> Frame /\
  select "prodname" df <> Frame.
Proof.
  intros df. split.
  - intros [out H]. exact (main_labels df_raw out H).
  - intros ((p & q & Hp & Hq) & Hc & Hd & Hn). now apply (main_defined df_raw p q).
Qed.

Lemma main_returns_iff_witness :
  (exists out, main Sample.raw = Ok out) /\
  ~ (exists out, main Sample.no_price = Ok out).
Proof.
  split.
  - apply (proj2 (@main_returns_iff Sample.scalars Sample.raw)).
    split; [exists 2, 3; split; reflexivity|].
    repeat split; discriminate.
  - intros H. apply (proj1 (@main_returns_iff Sample.scalars Sample.no_price)) in H.
    destruct H as ((p & q & Hp & _) & _). discriminate Hp.
Defined.

(** X3. [handle_missing_values] looks up price before qty: without a price
    column it raises [KeyError] for price, also when qty is absent too; with
    one price column and no qty column it raises [KeyError] for qty. A
    prodname column does not change this, unless its label is repeated. *)
Theorem handle_missing_values_key_errors {pandas : PandasScalars} (df : DataFrame) :
  select "prodname" df <> Frame ->
  (~ In "price" (columns df) ->
   handle_missing_values df = Raise (KeyError "price")) /\
  (forall p, select "price" df = Series p -> ~ In "qty" (columns df) ->
   handle_missing_values df = Raise (KeyError "qty")).
Proof.
  intros Hn. unfold handle_missing_values.
  rewrite (clean_prodname_ok df Hn). cbn [bind].
  match goal with |- context [coerce_and_drop ?d] => set (d0 := d) end.
  assert (C : columns d0 = columns df) by reflexivity.
  unfold coerce_and_drop, coerce_numeric. split.
  - intros Hp. apply select_absent in Hp.
    rewrite (select_columns "price" df d0 C), Hp. reflexivity.
  - intros p Hp Hq. apply select_absent in Hq.
    rewrite (select_columns "price" df d0 C), Hp. cbn [bind snd].
    rewrite (select_columns "qty" df (map_column p to_numeric_coerce d0) C), Hq.
    reflexivity.
Qed.

Lemma handle_missing_values_key_errors_witness :
  handle_missing_values Sample.no_price = Raise (KeyError "price").
Proof.
  apply (proj1 (@handle_missing_values_key_errors Sample.scalars Sample.no_price
                  ltac:(discriminate))).
  simpl. intros [H|[H|[]]]; discriminate H.
Defined.

(** X4. [remove_invalid_rows] does not coerce: with one price column, a
    single price cell that is a text or a timestamp makes the comparison
    raise [TypeError], whatever the other rows and the qty column hold. *)
Theorem remove_invalid_rows_type_error (df : DataFrame) (p : nat) (r : row) :
  select "price" df = Series p ->
  In r (rows df) ->
  (exists s, at_col p r = VStr s) \/ (exists t, at_col p r = VTime t) ->
  remove_invalid_rows df = Raise TypeError.
Proof.
  intros Hp Hin Hr. unfold remove_invalid_rows, mask_gt_zero. rewrite Hp.
  rewrite (mapM_raises (fun r => gt_zero (at_col p r)) (rows df) r TypeError Hin).
  - reflexivity.
  - now apply gt_zero_text.
  - intros b e. apply gt_zero_raises.
Qed.

Lemma remove_invalid_rows_type_error_witness :
  remove_invalid_rows Sample.text_price = Raise TypeError.
Proof.
  apply (remove_invalid_rows_type_error Sample.text_price 0
           [VStr "3"; VNum (NInt 1)]).
  - reflexivity.
  - simpl. tauto.
  - left. exists "3". reflexivity.
Defined.

(** X5. After [handle_missing_values] the comparison of
    [remove_invalid_rows] cannot raise: whenever the first returns a frame,
    the second returns on it, and keeps a subsequence of its rows. *)
Theorem validate_after_handle {pandas : PandasScalars} (df d : DataFrame) :
  handle_missing_values df = Ok d ->
  exists out,
    remove_invalid_rows d = Ok out /\
    columns out = columns df /\
    Subsequence (rows out) (rows d).
Proof.
  intros H.
  apply handle_missing_values_ok in H as (p & q & _ & Hp & Hq & C & R).
  destruct (remove_invalid_rows_defined d p q) as [out Hout].
  - now rewrite (select_columns _ _ _ C).
  - now rewrite (select_columns _ _ _ C).
  - rewrite R. apply Forall_forall. intros r Hin.
    apply filter_In in Hin as [Hin _]. apply in_map_iff in Hin as (r0 & <- & _).
    split; apply coerce_row_numeric; auto.
  - exists out. split; [exact Hout|].
    apply remove_invalid_rows_ok in Hout as (p' & q' & _ & _ & C' & R').
    split; [congruence|]. rewrite R'. apply filter_subsequence.
Qed.

Lemma validate_after_handle_witness :
  exists out,
    remove_invalid_rows Sample.bare_handled = Ok out /\
    columns out = columns Sample.bare /\
    Subsequence (rows out) (rows Sample.bare_handled).
Proof.
  apply (@validate_after_handle Sample.scalars Sample.bare Sample.bare_handled).
  reflexivity.
Defined.

(* ================================================================= *)
(** ** The pipeline as one map, one filter and one deduplication *)

Section NormalForm.
Context {pandas : PandasScalars}.

Lemma filter_map_commute {A B} (p : B -> bool) (p' : A -> bool) (g : A -> B) l :
  (forall a, p (g a) = p' a) -> filter p (map g l) = map g (filter p' l).
Proof.
  intros H. induction l as [|a l IH]; simpl; [reflexivity|].
  rewrite H. destruct (p' a); simpl; now rewrite IH.
Qed.

Lemma filter_filter {A} (a b : A -> bool) l :
  filter a (filter b l) = filter (fun x => b x && a x) l.
Proof.
  induction l as [|x l IH]; simpl; [reflexivity|].
  destruct (b x); simpl; [destruct (a x)|]; now rewrite IH.
Qed.

Lemma filter_true {A} (l : list A) : filter (fun _ => true) l = l.
Proof. induction l; simpl; congruence. Qed.

Lemma label_row_columns label f df df' r :
  columns df' = columns df -> label_row label f df' r = label_row label f df r.
Proof. intros C. unfold label_row. now rewrite (select_columns _ _ _ C). Qed.

Lemma label_row_length label f df r : length (label_row label f df r) = length r.
Proof. unfold label_row. destruct (select label df); auto using update_nth_length. Qed.

Lemma label_row_absent label f df r :
  select label df = Absent -> label_row label f df r = r.
Proof. unfold label_row. now intros ->. Qed.

Lemma label_row_series label f df i r :
  select label df = Series i -> label_row label f df r = update_nth i f r.
Proof. unfold label_row. now intros ->. Qed.

(** A stage leaves the cells of the columns with another label alone. *)
Lemma at_col_label_row_other label f df other j r :
  other <> label -> nth_error (columns df) j = Some other ->
  at_col j (label_row label f df r) = at_col j r.
Proof.
  intros Hne Hj. unfold label_row.
  destruct (select label df) as [|i|] eqn:E; try reflexivity.
  apply at_col_update_other. intros ->.
  apply select_series_label in E. congruence.
Qed.

Lemma at_col_label_row_same label f df i r :
  select label df = Series i -> i < length r ->
  at_col i (label_row label f df r) = f (at_col i r).
Proof.
  intros Hs Hlt. rewrite (label_row_series _ _ _ _ _ Hs).
  now apply at_col_update_same.
Qed.

Lemma date_present_columns df df' r :
  columns df' = columns df -> date_present df' r = date_present df r.
Proof. intros C. unfold date_present. now rewrite (select_columns _ _ _ C). Qed.

Lemma date_present_label_row label f df r :
  label <> "date_sold" ->
  date_present df (label_row label f df r) = date_present df r.
Proof.
  intros Hne. unfold date_present.
  destruct (select "date_sold" df) as [|i|] eqn:E; try reflexivity.
  rewrite (at_col_label_row_other label f df "date_sold" i); auto.
  now apply select_series_label.
Qed.

Lemma clean_categories_rows df d :
  clean_categories df = Ok d ->
  rows d = map (label_row "category" category_value df) (rows df).
Proof.
  unfold clean_categories, label_row.
  destruct (select "category" df); intros [= <-]; [|reflexivity].
  now rewrite map_id.
Qed.

Lemma clean_dates_rows df d :
  clean_dates df = Ok d ->
  rows d = filter (date_present df)
             (map (label_row "date_sold" to_datetime_coerce df) (rows df)).
Proof.
  unfold clean_dates, label_row, date_present.
  destruct (select "date_sold" df); intros [= <-].
  - now rewrite map_id, filter_true.
  - apply dropna_one.
Qed.

Lemma coerce_prodname_row df p q r :
  select "price" df = Series p -> select "qty" df = Series q ->
  coerce_row p q (prodname_row df r)
  = label_row "qty" to_numeric_coerce df
      (label_row "price" to_numeric_coerce df
         (label_row "prodname" prodname_value df r)).
Proof. intros Hp Hq. unfold coerce_row, label_row, prodname_row. now rewrite Hp, Hq. Qed.

Lemma positive_row_series df p q r :
  select "price" df = Series p -> select "qty" df = Series q ->
  positive_row df r = is_positive (at_col p r) && is_positive (at_col q r).
Proof. intros Hp Hq. unfold positive_row. now rewrite Hp, Hq. Qed.

Lemma is_positive_present c : is_positive c = true -> negb (isna c) = true.
Proof.
  intros H. apply negb_true_iff, positive_present. now apply is_positive_positive.
Qed.

(** The rows of a successful run. *)
Lemma main_rows df_raw out :
  main df_raw = Ok out ->
  rows out =
  keep_first
    (filter (fun r => date_present (clean_column_names df_raw) r
                      && positive_row (clean_column_names df_raw) r)
       (map (cleaned_row (clean_column_names df_raw)) (rows df_raw))).
Proof.
  intros H. set (df := clean_column_names df_raw).
  destruct (main_stages _ _ H) as (d1 & d2 & d3 & d4 & H1 & H2 & H3 & H4 & ->).
  pose proof (clean_categories_columns _ _ H1) as C1. fold df in C1.
  pose proof (clean_dates_columns _ _ H2) as C2.
  assert (C : columns d2 = columns df) by congruence.
  apply clean_categories_rows in H1. fold df in H1.
  apply clean_dates_rows in H2.
  apply handle_missing_values_ok in H3 as (p & q & _ & Hp & Hq & C3 & R3).
  apply remove_invalid_rows_ok in H4 as (p' & q' & Hp' & Hq' & C4 & R4).
  rewrite (select_columns "price" _ _ C3) in Hp'.
  rewrite (select_columns "qty" _ _ C3) in Hq'.
  assert (p' = p) as -> by congruence. assert (q' = q) as -> by congruence.
  clear Hp' Hq'.
  set (G := fun r => label_row "qty" to_numeric_coerce df
                       (label_row "price" to_numeric_coerce df
                          (label_row "prodname" prodname_value df r))).
  assert (EG : forall r, coerce_row p q (prodname_row d2 r) = G r).
  { intros r. rewrite (coerce_prodname_row d2 p q r Hp Hq). unfold G.
    now rewrite !(fun l f x => label_row_columns l f df d2 x C). }
  rewrite (select_columns "price" _ _ C) in Hp.
  rewrite (select_columns "qty" _ _ C) in Hq.
  assert (Hne : columns d4 <> []).
  { rewrite C4, C3, C. intros Hnil. apply select_series_label in Hp.
    rewrite Hnil in Hp. destruct p; discriminate. }
  rewrite (drop_duplicates_rows d4 Hne). unfold keep_first.
  assert (R : rows d4 =
              filter (fun r => date_present df r && positive_row df r)
                (map (cleaned_row df) (rows df_raw))).
  { rewrite R4, R3, (map_ext _ _ EG), H2.
    rewrite (filter_ext _ _ (fun r => date_present_columns df d1 r C1)).
    rewrite (map_ext _ _ (fun r => label_row_columns "date_sold" to_datetime_coerce
                                     df d1 r C1)).
    rewrite H1. change (rows df) with (rows df_raw).
    rewrite <- (filter_map_commute (date_present df) (date_present df) G).
    2:{ intros r. unfold G. rewrite !date_present_label_row; [reflexivity | | |];
          discriminate. }
    rewrite !map_map, !filter_filter.
    apply filter_ext. intros r.
    rewrite (positive_row_series df p q r Hp Hq). unfold both_present.
    destruct (date_present df r); simpl; [|reflexivity].
    destruct (is_positive (at_col p r)) eqn:P; simpl; [|now rewrite andb_false_r].
    destruct (is_positive (at_col q r)) eqn:Q; simpl; [|now rewrite andb_false_r].
    now rewrite (is_positive_present _ P), (is_positive_present _ Q). }
  now rewrite R.
Qed.

End NormalForm.

(* ================================================================= *)
(** ** Cells of a cleaned row *)

Section CleanedRowFacts.
Context {pandas : PandasScalars}.

Lemma cleaned_row_stages df r :
  cleaned_row df r = run_label_rows df pipeline_stages r.
Proof. reflexivity. Qed.

Lemma run_label_rows_cons df s stages r :
  run_label_rows df (s :: stages) r
  = run_label_rows df stages (label_row (fst s) (snd s) df r).
Proof. reflexivity. Qed.

Lemma run_label_rows_length df stages r :
  length (run_label_rows df stages r) = length r.
Proof.
  revert r. induction stages as [|s stages IH]; intros r; [reflexivity|].
  now rewrite run_label_rows_cons, IH, label_row_length.
Qed.

(** A column whose label is not among the stages' labels is not written. *)
Lemma run_label_rows_other df stages other j r :
  ~ In other (map fst stages) -> nth_error (columns df) j = Some other ->
  at_col j (run_label_rows df stages r) = at_col j r.
Proof.
  revert r. induction stages as [|s stages IH]; intros r Hout Hj; [reflexivity|].
  simpl in Hout. rewrite run_label_rows_cons, IH by tauto.
  apply (at_col_label_row_other _ _ df other); auto.
Qed.

(** The column of a stage holds the stage's conversion of the old cell. *)
Lemma run_label_rows_same df stages label f i r :
  NoDup (map fst stages) -> In (label, f) stages ->
  select label df = Series i -> i < length r ->
  at_col i (run_label_rows df stages r) = f (at_col i r).
Proof.
  revert r. induction stages as [|s stages IH]; intros r Hnd Hin Hs Hlt; [destruct Hin|].
  simpl in Hnd. inversion Hnd as [|? ? Hfresh Hnd']; subst.
  pose proof (select_series_label _ _ _ Hs) as Hlabel.
  rewrite run_label_rows_cons.
  destruct Hin as [->|Hin].
  - simpl in Hfresh |- *.
    rewrite (run_label_rows_other df stages label i) by assumption.
    now apply at_col_label_row_same.
  - rewrite IH by (auto; now rewrite label_row_length).
    f_equal. apply (at_col_label_row_other _ _ df label); auto.
    intros ->. apply Hfresh. apply in_map_iff. now exists (fst s, f).
Qed.

(** A row that every stage leaves alone is left alone by all of them. *)
Lemma run_label_rows_fixed df stages r :
  (forall s, In s stages -> label_row (fst s) (snd s) df r = r) ->
  run_label_rows df stages r = r.
Proof.
  induction stages as [|s stages IH]; intros H; [reflexivity|].
  rewrite run_label_rows_cons, (H s) by now left.
  apply IH. intros s' Hs'. apply H. now right.
Qed.

Lemma update_nth_fixed i f r :
  (i < length r -> f (at_col i r) = at_col i r) -> update_nth i f r = r.
Proof.
  unfold at_col. revert i. induction r as [|c r IH]; intros [|i] H; simpl; try reflexivity.
  - f_equal. apply H. simpl. lia.
  - f_equal. apply IH. intros Hlt. apply H. simpl. lia.
Qed.

Lemma label_row_fixed label f df r :
  (forall i, select label df = Series i -> i < length r ->
             f (at_col i r) = at_col i r) ->
  label_row label f df r = r.
Proof.
  intros H. unfold label_row. destruct (select label df) as [|i|] eqn:E; try reflexivity.
  apply update_nth_fixed. now apply H.
Qed.

(** Running the stages on their own output changes nothing, as long as each
    conversion is idempotent on the cell it reads. *)
Lemma run_label_rows_idempotent df stages r :
  NoDup (map fst stages) ->
  (forall label f i, In (label, f) stages -> select label df = Series i ->
                     i < length r -> f (f (at_col i r)) = f (at_col i r)) ->
  run_label_rows df stages (run_label_rows df stages r)
  = run_label_rows df stages r.
Proof.
  intros Hnd Hidem. apply run_label_rows_fixed. intros [label f] Hin. simpl.
  apply label_row_fixed. intros i Hs Hlt.
  rewrite run_label_rows_length in Hlt.
  rewrite (run_label_rows_same df stages label f i r Hnd Hin Hs Hlt).
  now apply (Hidem label f i).
Qed.

Lemma pipeline_stages_nodup : NoDup (map fst pipeline_stages).
Proof.
  simpl. repeat constructor; simpl; intros H;
    repeat (destruct H as [H|H]; [discriminate H|]); exact H.
Qed.

Lemma cleaned_row_length df r : length (cleaned_row df r) = length r.
Proof. rewrite cleaned_row_stages. apply run_label_rows_length. Qed.

Lemma cleaned_row_columns df df' r :
  columns df' = columns df -> cleaned_row df' r = cleaned_row df r.
Proof.
  intros C. unfold cleaned_row.
  now rewrite !(fun l f x => label_row_columns l f df df' x C).
Qed.

Lemma positive_row_columns df df' r :
  columns df' = columns df -> positive_row df' r = positive_row df r.
Proof.
  intros C. unfold positive_row.
  now rewrite (select_columns "price" _ _ C), (select_columns "qty" _ _ C).
Qed.

Lemma subsequence_length {A} (sub l : list A) :
  Subsequence sub l -> length sub <= length l.
Proof. induction 1; simpl; lia. Qed.

Lemma keep_first_subsequence rs : Subsequence (keep_first rs) rs.
Proof. apply take_mask_subsequence. Qed.

(** Every row of the output is the cleaned form of a row of the input and
    passed both row filters. *)
Lemma main_row_origin df_raw out r' :
  main df_raw = Ok out -> In r' (rows out) ->
  exists r, In r (rows df_raw) /\
            r' = cleaned_row (clean_column_names df_raw) r /\
            date_present (clean_column_names df_raw) r' = true /\
            positive_row (clean_column_names df_raw) r' = true.
Proof.
  intros H Hin. rewrite (main_rows _ _ H) in Hin.
  apply (subsequence_in _ _ _ (keep_first_subsequence _)) in Hin.
  apply filter_In in Hin as [Hin Hv]. apply andb_true_iff in Hv as [Hd Hp].
  apply in_map_iff in Hin as (r & <- & Hr). exists r. auto.
Qed.

End CleanedRowFacts.

(** X6. A successful run keeps the shape of the table: the output's labels
    are the cleaned labels of the input, in the same order, and when every
    input row has one cell per column, so has every output row. *)
Theorem main_keeps_shape {pandas : PandasScalars} (df_raw out : DataFrame) :
  main df_raw = Ok out ->
  columns out = map clean_name (columns df_raw) /\
  length (columns out) = length (columns df_raw) /\
  (well_formed df_raw -> well_formed out).
Proof.
  intros H. pose proof (main_columns _ _ H) as C.
  split; [exact C|]. split; [rewrite C; apply length_map|].
  intros Hwf. exact (main_well_formed _ _ Hwf H).
Qed.

Lemma main_keeps_shape_witness :
  columns Sample.cleaned = map clean_name (columns Sample.raw) /\
  length (columns Sample.cleaned) = length (columns Sample.raw) /\
  well_formed Sample.cleaned.
Proof.
  destruct (@main_keeps_shape Sample.scalars Sample.raw Sample.cleaned eq_refl)
    as (C & L & W).
  split; [exact C|]. split; [exact L|].
  apply W. repeat constructor.
Defined.



(** X8. The pipeline never adds a row and never writes a column other than
    category, date_sold, prodname, price and qty: the output has at most as
    many rows as the input, and every output row agrees with some input row,
    of the same length, in every column with another label. *)
Theorem main_leaves_other_columns {pandas : PandasScalars} (df_raw out : DataFrame) :
  main df_raw = Ok out ->
  length (rows out) <= length (rows df_raw) /\
  forall r', In r' (rows out) ->
    exists r, In r (rows df_raw) /\ length r' = length r /\
      forall j label,
        nth_error (columns out) j = Some label ->
        ~ In label ["category"; "date_sold"; "prodname"; "price"; "qty"] ->
        at_col j r' = at_col j r.
Proof.
  intros H. split.
  - rewrite (main_rows _ _ H).
    etransitivity; [apply subsequence_length, keep_first_subsequence|].
    etransitivity; [apply subsequence_length, filter_subsequence|].
    now rewrite length_map.
  - intros r' Hin. destruct (main_row_origin _ _ _ H Hin) as (r & Hr & -> & _).
    exists r. split; [exact Hr|]. split; [apply cleaned_row_length|].
    intros j label Hj Hout. rewrite cleaned_row_stages.
    apply (run_label_rows_other _ _ label); [exact Hout|].
    cbn [columns clean_column_names]. now rewrite <- (main_columns _ _ H).
Qed.

Lemma main_leaves_other_columns_witness :
  length (rows Sample.bare_handled) <= length (rows Sample.bare) /\
  exists r, In r (rows Sample.bare) /\
            at_col 0 [VStr "a1"; VNum (NInt 3); VNum (NInt 4)] = at_col 0 r.
Proof.
  destruct (@main_leaves_other_columns Sample.scalars Sample.bare Sample.bare_handled
              eq_refl) as [Hlen Hrows].
  split; [exact Hlen|].
  destruct (Hrows [VStr "a1"; VNum (NInt 3); VNum (NInt 4)]) as (r & Hr & _ & Hcell).
  { simpl. tauto. }
  exists r. split; [exact Hr|].
  apply (Hcell 0 "sku"); [reflexivity|].
  simpl. intros [E|[E|[E|[E|[E|[]]]]]]; discriminate E.
Defined.

(* ================================================================= *)
(** ** Running a stage on its own output *)

Section IdempotenceFacts.
Context {pandas : PandasScalars}.
Import PyStr.

Lemma filter_map_fixed {A} (p : A -> bool) (u : A -> A) l :
  (forall x, In x l -> u x = x /\ p x = true) -> filter p (map u l) = l.
Proof.
  induction l as [|a l IH]; intros H; simpl; [reflexivity|].
  destruct (H a (or_introl eq_refl)) as [-> ->].
  f_equal. apply IH. intros x Hx. apply H. now right.
Qed.

Lemma to_numeric_coerce_fixed c :
  to_numeric_coerce (to_numeric_coerce c) = to_numeric_coerce c.
Proof. destruct (to_numeric_coerce_numeric c) as [x ->]. reflexivity. Qed.

Lemma to_datetime_coerce_fixed c :
  to_datetime_coerce (to_datetime_coerce c) = to_datetime_coerce c.
Proof. destruct (to_datetime_coerce_cases c) as [->|[t ->]]; reflexivity. Qed.

Lemma upper_upper_char c : upper_char (upper_char c) = upper_char c.
Proof. char_cases c; reflexivity. Qed.

Lemma title_from_fixed b s : title_from b (title_from b s) = title_from b s.
Proof.
  revert b. induction s as [|c s IH]; intros b; simpl; [reflexivity|].
  rewrite title_char_cased, IH. f_equal.
  destruct b; [apply lower_lower_char | apply upper_upper_char].
Qed.

Lemma prodname_value_fixed c :
  prodname_value (prodname_value c) = prodname_value c.
Proof.
  unfold prodname_value. cbn [astype_str].
  destruct (prodname_text_stripped (astype_str c)) as [Hs Hc]. cbv zeta in Hs, Hc.
  rewrite Hs, Hc. unfold title. now rewrite title_from_fixed.
Qed.

Lemma is_positive_gt_zero c : is_positive c = true -> gt_zero c = Ok true.
Proof. unfold is_positive. destruct (gt_zero c) as [b|e]; [now intros ->|discriminate]. Qed.

Lemma mapM_all_true {A} (f : A -> result bool) l :
  (forall a, In a l -> f a = Ok true) -> mapM f l = Ok (map (fun _ => true) l).
Proof.
  induction l as [|a l IH]; intros H; simpl; [reflexivity|].
  rewrite (H a (or_introl eq_refl)). simpl.
  rewrite IH by (intros x Hx; apply H; now right). reflexivity.
Qed.

Lemma take_mask_all {A} (l : list A) : take_mask (map (fun _ => true) l) l = l.
Proof. rewrite take_mask_map. apply filter_true. Qed.

(** On rows that all pass, the validator returns the frame as it is. *)
Lemma remove_invalid_rows_all_valid df p q :
  select "price" df = Series p -> select "qty" df = Series q ->
  (forall r, In r (rows df) ->
     is_positive (at_col p r) = true /\ is_positive (at_col q r) = true) ->
  remove_invalid_rows df = Ok df.
Proof.
  intros Hp Hq Hall. unfold remove_invalid_rows, mask_gt_zero. rewrite Hp, Hq.
  rewrite (mapM_all_true (fun r => gt_zero (at_col p r))).
  2:{ intros r Hr. apply is_positive_gt_zero, (Hall r Hr). }
  cbn [bind].
  rewrite (mapM_all_true (fun r => gt_zero (at_col q r))).
  2:{ intros r Hr. apply is_positive_gt_zero, (Hall r Hr). }
  cbn [bind]. rewrite mask_and_map, take_mask_all. now destruct df.
Qed.

Lemma kept_fixed seen rs :
  NoDup (map row_key rs) -> (forall r, In r rs -> ~ In (row_key r) seen) ->
  take_mask (map negb (duplicated_from seen rs)) rs = rs.
Proof.
  revert seen. induction rs as [|a rs IH]; intros seen Hnd Hseen; [reflexivity|].
  simpl in Hnd. inversion Hnd as [|? ? Ha Hnd']; subst. simpl.
  assert (E : row_in a seen = false).
  { apply row_in_false, Hseen. now left. }
  rewrite E. simpl. f_equal. apply IH; [exact Hnd'|].
  intros r Hr [Hk|Hs].
  - apply Ha. rewrite Hk. now apply in_map.
  - apply (Hseen r); [now right | exact Hs].
Qed.

Lemma keep_first_nodup rs : NoDup (map row_key (keep_first rs)).
Proof. apply kept_nodup. Qed.

Lemma keep_first_fixed rs : NoDup (map row_key rs) -> keep_first rs = rs.
Proof. intros H. apply kept_fixed; [exact H | intros r _ []]. Qed.

Lemma drop_duplicates_fixed df :
  NoDup (map row_key (rows df)) -> drop_duplicates df = df.
Proof.
  intros H. unfold drop_duplicates. destruct (columns df) eqn:E; [reflexivity|].
  fold (keep_first (rows df)). rewrite (keep_first_fixed _ H), <- E. now destruct df.
Qed.

Lemma drop_duplicates_nodup df :
  columns df <> [] -> NoDup (map row_key (rows (drop_duplicates df))).
Proof. intros H. rewrite (drop_duplicates_rows df H). apply kept_nodup. Qed.

End IdempotenceFacts.

(** X9. [clean_dates] is idempotent: on a frame it has returned, it returns
    the same frame again, since a timestamp converts to itself and no row
    without a date is left. *)
Theorem clean_dates_idempotent {pandas : PandasScalars} (df d : DataFrame) :
  clean_dates df = Ok d -> clean_dates d = Ok d.
Proof.
  intros H. pose proof (clean_dates_columns _ _ H) as C.
  pose proof (clean_dates_rows _ _ H) as R.
  destruct (select "date_sold" df) as [|i|] eqn:E.
  - unfold clean_dates in H |- *. rewrite E in H. injection H as <-. now rewrite E.
  - rewrite (clean_dates_series d i) by (now rewrite (select_columns _ _ _ C)).
    f_equal. destruct d as [cols rs]. unfold dropna, map_column. simpl in *.
    f_equal. rewrite (filter_ext _ (fun r => negb (isna (at_col i r)))).
    2:{ intros r. now rewrite orb_false_r. }
    apply filter_map_fixed. intros x Hx. rewrite R in Hx.
    apply filter_In in Hx as [Hx Hp]. unfold date_present in Hp. rewrite E in Hp.
    split; [|exact Hp].
    apply in_map_iff in Hx as (r & <- & _).
    rewrite (label_row_series _ _ _ _ _ E).
    apply update_nth_fixed. intros Hlt. rewrite update_nth_length in Hlt.
    rewrite at_col_update_same by assumption. apply to_datetime_coerce_fixed.
  - unfold clean_dates in H. rewrite E in H. discriminate.
Qed.

Lemma clean_dates_idempotent_witness :
  exists d, clean_dates (clean_column_names Sample.raw) = Ok d /\
            clean_dates d = Ok d.
Proof.
  eexists. split; [reflexivity|].
  apply (@clean_dates_idempotent Sample.scalars (clean_column_names Sample.raw)).
  reflexivity.
Defined.

(** X10. [handle_missing_values] is idempotent: on a frame it has returned,
    it returns the same frame again. Title-casing a title-cased product
    name, coercing a number and dropping rows without a missing number all
    change nothing. *)
Theorem handle_missing_values_idempotent {pandas : PandasScalars} (df d : DataFrame) :
  handle_missing_values df = Ok d -> handle_missing_values d = Ok d.
Proof.
  intros H.
  apply handle_missing_values_ok in H as (p & q & Hn & Hp & Hq & C & R).
  assert (Hn' : select "prodname" d <> Frame) by (now rewrite (select_columns _ _ _ C)).
  rewrite (handle_missing_values_series d p q Hn').
  2:{ now rewrite (select_columns _ _ _ C). }
  2:{ now rewrite (select_columns _ _ _ C). }
  f_equal. destruct d as [cols rs]. simpl in C, R. f_equal.
  cbn [rows].
  set (stages := [ ("prodname", prodname_value); ("price", to_numeric_coerce);
                   ("qty", to_numeric_coerce) ]).
  assert (G : forall df' r, columns df' = columns df ->
            coerce_row p q (prodname_row df' r) = run_label_rows df stages r).
  { intros df' r C'. rewrite (coerce_prodname_row df' p q r).
    - unfold stages, run_label_rows. simpl.
      now rewrite !(fun l f x => label_row_columns l f df df' x C').
    - now rewrite (select_columns _ _ _ C').
    - now rewrite (select_columns _ _ _ C'). }
  apply filter_map_fixed. intros x Hx. rewrite R in Hx.
  apply filter_In in Hx as [Hx Hb]. split; [|exact Hb].
  apply in_map_iff in Hx as (r & <- & _).
  rewrite (G df r eq_refl), (G {| columns := cols; rows := rs |} _ C).
  apply run_label_rows_idempotent.
  - simpl. repeat constructor; simpl; intros E;
      repeat (destruct E as [E|E]; [discriminate E|]); exact E.
  - intros label f i Hin _ _. simpl in Hin.
    destruct Hin as [E|[E|[E|[]]]]; injection E as <- <-;
      auto using prodname_value_fixed, to_numeric_coerce_fixed.
Qed.

Lemma handle_missing_values_idempotent_witness :
  exists d,
    handle_missing_values (clean_column_names Sample.shop) = Ok d /\
    In [VStr "Kid'S Lamp"; NA; VNum (NInt 12); VNum (NInt 1); VStr "2024-02-10"]
       (rows d) /\
    handle_missing_values d = Ok d.
Proof.
  eexists. split; [reflexivity|]. split; [simpl; tauto|].
  apply (@handle_missing_values_idempotent Sample.scalars
           (clean_column_names Sample.shop)).
  reflexivity.
Defined.

(** X11. [remove_invalid_rows] keeps, in their order, exactly the rows
    whose price and qty are both numbers greater than zero, so no valid row
    is ever dropped; and it is idempotent. *)
Theorem remove_invalid_rows_exact (df out : DataFrame) (p q : nat) :
  select "price" df = Series p -> select "qty" df = Series q ->
  remove_invalid_rows df = Ok out ->
  columns out = columns df /\
  Subsequence (rows out) (rows df) /\
  (forall r, In r (rows out) <->
             In r (rows df) /\ positive (at_col p r) /\ positive (at_col q r)) /\
  remove_invalid_rows out = Ok out.
Proof.
  intros Hp Hq H.
  apply remove_invalid_rows_ok in H as (p' & q' & Hp' & Hq' & C & R).
  assert (p' = p) as -> by congruence. assert (q' = q) as -> by congruence.
  assert (Hiff : forall r, In r (rows out) <->
            In r (rows df) /\ positive (at_col p r) /\ positive (at_col q r)).
  { intros r. rewrite R, filter_In, andb_true_iff, !is_positive_positive. tauto. }
  split; [exact C|]. split; [rewrite R; apply filter_subsequence|].
  split; [exact Hiff|].
  apply (remove_invalid_rows_all_valid out p q).
  - now rewrite (select_columns _ _ _ C).
  - now rewrite (select_columns _ _ _ C).
  - intros r Hr. apply Hiff in Hr as (_ & P & Q).
    split; now apply is_positive_positive.
Qed.

Lemma remove_invalid_rows_exact_witness :
  exists out,
    remove_invalid_rows Sample.numeric = Ok out /\
    (In [VNum (NInt 3); VNum (NInt 1)] (rows out) <->
     In [VNum (NInt 3); VNum (NInt 1)] (rows Sample.numeric)
     /\ positive (VNum (NInt 3)) /\ positive (VNum (NInt 1))) /\
    remove_invalid_rows out = Ok out.
Proof.
  eexists. split; [reflexivity|].
  destruct (remove_invalid_rows_exact Sample.numeric _ 0 1 eq_refl eq_refl eq_refl)
    as (_ & _ & Hiff & Hidem).
  split; [apply (Hiff [VNum (NInt 3); VNum (NInt 1)]) | exact Hidem].
Defined.

(** X12. [drop_duplicates] is idempotent, and it returns a frame in which
    no two rows hold the same values as it is. *)
Theorem drop_duplicates_idempotent (df : DataFrame) :
  drop_duplicates (drop_duplicates df) = drop_duplicates df /\
  (NoDup (map row_key (rows df)) -> drop_duplicates df = df).
Proof.
  split; [|apply drop_duplicates_fixed].
  destruct (columns df) as [|c cols] eqn:E.
  - unfold drop_duplicates at 2. rewrite E.
    unfold drop_duplicates. now rewrite E.
  - apply drop_duplicates_fixed, drop_duplicates_nodup. congruence.
Qed.

Lemma drop_duplicates_idempotent_witness :
  drop_duplicates Sample.cleaned = Sample.cleaned /\
  drop_duplicates (drop_duplicates Sample.zeros) = drop_duplicates Sample.zeros.
Proof.
  split; [|apply (proj1 (drop_duplicates_idempotent Sample.zeros))].
  apply (proj2 (drop_duplicates_idempotent Sample.cleaned)).
  repeat constructor; simpl; intros H;
    repeat (destruct H as [H|H]; [discriminate H|]); exact H.
Defined.

(* ================================================================= *)
(** ** The text of a cleaned category *)

Section VocabularyFacts.
Context {pandas : PandasScalars}.
Import PyStr.

Lemma lower_fixed s : lower (lower s) = lower s.
Proof. unfold lower. rewrite map_chars_compose. apply map_chars_ext, lower_lower_char. Qed.

Lemma tidy_category_lower s : lower (tidy_category s) = tidy_category s.
Proof. apply lower_fixed. Qed.

Lemma tidy_category_collapsed s : collapse_ws (tidy_category s) = tidy_category s.
Proof.
  unfold tidy_category, collapse_ws.
  now rewrite collapse_from_lower, collapse_from_fixed.
Qed.

Lemma normalize_category_vocabulary s : in_vocabulary (normalize_category (tidy_category s)).
Proof.
  unfold normalize_category, in_vocabulary.
  destruct (contains "office" (tidy_category s)) eqn:E1;
    [repeat split; try reflexivity; intros H; discriminate H|].
  destruct (contains "electronic" (tidy_category s)) eqn:E2;
    [repeat split; try reflexivity; intros H; discriminate H|].
  destruct (contains "kitchen" (tidy_category s)) eqn:E3;
    [repeat split; try reflexivity; intros H; discriminate H|].
  destruct (contains "fitness" (tidy_category s)) eqn:E4;
    [repeat split; try reflexivity; intros H; discriminate H|].
  split; [apply tidy_category_lower|]. split; [apply tidy_category_collapsed|].
  repeat split; congruence.
Qed.

(** *** Cleaning a cleaned category *)

Lemma lstrip_by_length p s : String.length (lstrip_by p s) <= String.length s.
Proof. induction s as [|c s IH]; simpl; [lia|]. destruct (p c); simpl; lia. Qed.

Lemma rstrip_by_length p s : String.length (rstrip_by p s) <= String.length s.
Proof.
  induction s as [|c s IH]; simpl; [lia|].
  destruct (rstrip_by p s); [destruct (p c)|]; simpl in *; lia.
Qed.

Lemma lstrip_by_same_length p s :
  String.length (lstrip_by p s) = String.length s -> lstrip_by p s = s.
Proof.
  destruct s as [|c s]; simpl; [reflexivity|].
  destruct (p c); [|reflexivity].
  intros H. pose proof (lstrip_by_length p s). lia.
Qed.

Lemma strip_by_fixed_parts p s :
  strip_by p s = s -> lstrip_by p s = s /\ rstrip_by p s = s.
Proof.
  unfold strip_by. intros H.
  assert (L : lstrip_by p s = s).
  { apply lstrip_by_same_length.
    pose proof (rstrip_by_length p (lstrip_by p s)) as H1.
    pose proof (lstrip_by_length p s) as H2.
    rewrite H in H1. lia. }
  split; [exact L|]. now rewrite L in H.
Qed.

Lemma lstrip_other_collapse q s :
  lstrip_by is_space s = s -> lstrip_by q s = s ->
  lstrip_by q (collapse_from false s) = collapse_from false s.
Proof.
  destruct s as [|c s]; [reflexivity|]. intros Hs Hq.
  apply lstrip_by_fixed_head in Hs, Hq. simpl. rewrite Hs. simpl. now rewrite Hq.
Qed.

Lemma rstrip_other_collapse q b s :
  q " "%char = false ->
  rstrip_by is_space s = s -> rstrip_by q s = s ->
  rstrip_by q (collapse_from b s) = collapse_from b s.
Proof.
  intros Hsp. revert b. induction s as [|c s IH]; intros b Hs Hq; [reflexivity|].
  apply rstrip_by_fixed_cases in Hs as [[-> Hc]|[Hne Hs]].
  - apply rstrip_by_fixed_cases in Hq as [[_ Hqc]|[Hne _]]; [|congruence].
    simpl. rewrite Hc. simpl. now rewrite Hqc.
  - apply rstrip_by_fixed_cases in Hq as [[-> _]|[_ Hq]]; [congruence|].
    cbn [collapse_from]. destruct (is_space c).
    + destruct b; [now apply IH|].
      apply rstrip_by_cons_fixed; auto using collapse_from_nonempty.
    + apply rstrip_by_cons_fixed; auto using collapse_from_nonempty.
Qed.

Lemma lower_char_not_space c : is_space c = false -> is_space (lower_char c) = false.
Proof. now rewrite is_space_lower_char. Qed.

Lemma lower_char_not_dquote c :
  Ascii.eqb dquote c = false -> Ascii.eqb dquote (lower_char c) = false.
Proof. now rewrite dquote_lower_char. Qed.

(** The tidied text of an unquoted text is tidy. *)
Lemma tidy_category_fixed s :
  unquoted s -> tidy_category (tidy_category s) = tidy_category s.
Proof.
  unfold unquoted. intros Hq.
  assert (T : tidy_category s = lower (collapse_ws (strip s))).
  { unfold tidy_category. now rewrite Hq. }
  rewrite T. set (x := strip s) in *.
  assert (Xl : lstrip_by is_space x = x) by apply strip_by_lfixed.
  assert (Xr : rstrip_by is_space x = x) by apply strip_by_rfixed.
  destruct (strip_by_fixed_parts _ _ Hq) as [Ql Qr].
  set (t := lower (collapse_ws x)).
  assert (St : strip t = t).
  { unfold t, lower, collapse_ws, strip, strip_by.
    rewrite (lstrip_by_map_chars is_space lower_char _ lower_char_not_space)
      by now apply lstrip_collapse.
    apply (rstrip_by_map_chars is_space lower_char _ lower_char_not_space).
    now apply rstrip_collapse. }
  assert (Qt : strip_char dquote t = t).
  { unfold t, lower, collapse_ws, strip_char, strip_by.
    rewrite (lstrip_by_map_chars _ lower_char _ lower_char_not_dquote)
      by now apply lstrip_other_collapse.
    apply (rstrip_by_map_chars _ lower_char _ lower_char_not_dquote).
    now apply rstrip_other_collapse. }
  unfold tidy_category. rewrite St, Qt.
  unfold t, collapse_ws. now rewrite collapse_from_lower, collapse_from_fixed, lower_fixed.
Qed.

Lemma category_value_fixed c :
  unquoted (astype_str c) ->
  category_value (category_value c) = category_value c.
Proof.
  intros Hq. unfold category_value. cbn [astype_str]. f_equal.
  set (t := tidy_category (astype_str c)).
  assert (Ht : tidy_category t = t) by now apply tidy_category_fixed.
  unfold normalize_category at 2 3.
  destruct (contains "office" t) eqn:E1; [reflexivity|].
  destruct (contains "electronic" t) eqn:E2; [reflexivity|].
  destruct (contains "kitchen" t) eqn:E3; [reflexivity|].
  destruct (contains "fitness" t) eqn:E4; [reflexivity|].
  rewrite Ht. unfold normalize_category. now rewrite E1, E2, E3, E4.
Qed.

End VocabularyFacts.

(** X13. Whatever the cell, the text [clean_categories] writes is lower
    case, has whitespace only as single spaces, and holds office,
    electronic, kitchen or fitness only when it is exactly [office],
    [electronics], [kitchen] or [fitness]. *)
Theorem category_value_vocabulary {pandas : PandasScalars} (c : cell) :
  exists t, category_value c = VStr t /\ in_vocabulary t.
Proof.
  exists (normalize_category (tidy_category (astype_str c))).
  split; [reflexivity | apply normalize_category_vocabulary].
Qed.

(** X14. [clean_categories] is idempotent on a frame whose category texts
    have no double quotes around them: run on its own output, it returns
    that output. (With quotes, whitespace inside them survives the first
    run and is stripped by the second.) *)
Theorem clean_categories_idempotent {pandas : PandasScalars} (df d : DataFrame) :
  clean_categories df = Ok d ->
  (forall i r, select "category" df = Series i -> In r (rows df) ->
               i < length r -> unquoted (astype_str (at_col i r))) ->
  clean_categories d = Ok d.
Proof.
  intros H Hq. pose proof (clean_categories_columns _ _ H) as C.
  destruct (select "category" df) as [|i|] eqn:E.
  - unfold clean_categories in H |- *. rewrite E in H. injection H as <-. now rewrite E.
  - rewrite (clean_categories_series d i) by (now rewrite (select_columns _ _ _ C)).
    rewrite (clean_categories_series df i E) in H. injection H as <-.
    f_equal. unfold map_column. simpl. f_equal.
    rewrite map_map. apply map_ext_in. intros r Hr.
    apply update_nth_fixed. intros Hlt. rewrite update_nth_length in Hlt.
    rewrite at_col_update_same by assumption.
    apply category_value_fixed. now apply (Hq i r).
  - unfold clean_categories in H. rewrite E in H. discriminate.
Qed.

Lemma clean_categories_idempotent_witness :
  exists d, clean_categories Sample.plain = Ok d /\ clean_categories d = Ok d.
Proof.
  eexists. split; [reflexivity|].
  apply (@clean_categories_idempotent Sample.scalars Sample.plain); [reflexivity|].
  intros i r Hs Hin _. injection Hs as <-.
  simpl in Hin. destruct Hin as [<-|[<-|[<-|[]]]]; reflexivity.
Defined.

(* ================================================================= *)
(** ** Order of the category and date stages *)

Section OrderFacts.
Context {pandas : PandasScalars}.

Lemma update_nth_commute i j f g r :
  i <> j -> update_nth i f (update_nth j g r) = update_nth j g (update_nth i f r).
Proof.
  revert i j. induction r as [|c r IH]; intros [|i] [|j] H; simpl;
    try reflexivity; try congruence.
  f_equal. apply IH. congruence.
Qed.

End OrderFacts.

(** X15. The category stage and the date stage can be swapped: when
    neither label is repeated, [clean_categories] followed by [clean_dates]
    returns the same frame as [clean_dates] followed by
    [clean_categories]. *)
Theorem clean_categories_clean_dates_commute {pandas : PandasScalars} (df : DataFrame) :
  select "category" df <> Frame -> select "date_sold" df <> Frame ->
  (d <- clean_categories df ;; clean_dates d)
  = (d <- clean_dates df ;; clean_categories d).
Proof.
  intros Hc Hd.
  assert (Ca : forall d, select "category" d = Absent -> clean_categories d = Ok d).
  { intros d E. unfold clean_categories. now rewrite E. }
  assert (Da : forall d, select "date_sold" d = Absent -> clean_dates d = Ok d).
  { intros d E. unfold clean_dates. now rewrite E. }
  destruct (select "category" df) as [|i|] eqn:Ec; [| |congruence];
    destruct (select "date_sold" df) as [|j|] eqn:Ed; try congruence.
  - now rewrite (Ca df Ec), (Da df Ed); cbn [bind]; rewrite (Ca df Ec), (Da df Ed).
  - rewrite (Ca df Ec), (clean_dates_series df j Ed). cbn [bind].
    rewrite (clean_dates_series df j Ed). symmetry. apply Ca. exact Ec.
  - rewrite (Da df Ed), (clean_categories_series df i Ec). cbn [bind].
    rewrite (clean_categories_series df i Ec). apply Da. exact Ed.
  - assert (Hij : i <> j).
    { apply (select_series_distinct "category" "date_sold" df); auto. discriminate. }
    rewrite (clean_categories_series df i Ec), (clean_dates_series df j Ed). cbn [bind].
    rewrite (clean_dates_series (map_column i category_value df) j Ed).
    rewrite (clean_categories_series
               (dropna [j] (map_column j to_datetime_coerce df)) i Ec).
    f_equal. unfold dropna, map_column. cbn [columns rows]. f_equal.
    rewrite !map_map.
    rewrite <- (filter_map_commute
                  (fun r => negb (existsb (fun k => isna (at_col k r)) [j]))
                  (fun r => negb (existsb (fun k => isna (at_col k r)) [j]))
                  (update_nth i category_value)).
    2:{ intros r. cbn [existsb]. now rewrite at_col_update_other by assumption. }
    rewrite map_map. f_equal. apply map_ext. intros r.
    apply update_nth_commute. congruence.
Qed.

Lemma clean_categories_clean_dates_commute_witness :
  (d <- clean_categories Sample.plain ;; clean_dates d)
  = (d <- clean_dates Sample.plain ;; clean_categories d).
Proof.
  apply (@clean_categories_clean_dates_commute Sample.scalars Sample.plain);
    discriminate.
Defined.

(* ================================================================= *)
(** ** The pipeline on its own output *)

Section RerunFacts.
Context {pandas : PandasScalars}.

Lemma cleaned_row_cell df label f i r :
  In (label, f) pipeline_stages -> select label df = Series i -> i < length r ->
  at_col i (cleaned_row df r) = f (at_col i r).
Proof.
  intros Hin Hs Hlt. rewrite cleaned_row_stages.
  now apply (run_label_rows_same df pipeline_stages label f i r pipeline_stages_nodup).
Qed.

Lemma filter_all {A} (p : A -> bool) l :
  (forall x, In x l -> p x = true) -> filter p l = l.
Proof.
  induction l as [|a l IH]; intros H; simpl; [reflexivity|].
  rewrite (H a (or_introl eq_refl)). f_equal. apply IH. intros x Hx. apply H. now right.
Qed.

(** A cleaned row is a fixed point of the row map, when its category text
    had no quotes around it. *)
Lemma cleaned_row_fixed df r :
  (forall i, select "category" df = Series i -> i < length r ->
             unquoted (astype_str (at_col i r))) ->
  cleaned_row df (cleaned_row df r) = cleaned_row df r.
Proof.
  intros Hq. rewrite !cleaned_row_stages.
  apply run_label_rows_idempotent; [apply pipeline_stages_nodup|].
  intros label f i Hin Hs Hlt. simpl in Hin.
  destruct Hin as [E|[E|[E|[E|[E|[]]]]]]; injection E as <- <-;
    auto using to_datetime_coerce_fixed, prodname_value_fixed, to_numeric_coerce_fixed.
  apply category_value_fixed. now apply (Hq i).
Qed.

Lemma clean_column_names_fixed_labels df_raw :
  columns (clean_column_names (clean_column_names df_raw))
  = columns (clean_column_names df_raw).
Proof.
  simpl. rewrite map_map. apply map_ext. intros name. apply clean_name_fixed.
Qed.

End RerunFacts.

(** X16. In the pipeline's output, for a raw frame with one cell per column
    in every row, every category cell is a text of the normalized
    vocabulary and every prodname cell is a text without surrounding or
    repeated whitespace in which each run of letters starts with an
    upper-case letter and continues in lower case. *)
Theorem main_output_text {pandas : PandasScalars} (df_raw out : DataFrame) :
  main df_raw = Ok out -> well_formed df_raw ->
  (forall i r, select "category" out = Series i -> In r (rows out) ->
     exists t, at_col i r = VStr t /\ in_vocabulary t) /\
  (forall i r, select "prodname" out = Series i -> In r (rows out) ->
     exists t, at_col i r = VStr t /\
               PyStr.strip t = t /\ PyStr.collapse_ws t = t /\ runs_titled t = true).
Proof.
  intros H Hwf.
  assert (C : columns out = columns (clean_column_names df_raw)) by apply (main_columns _ _ H).
  assert (Hcell : forall label f i r,
            In (label, f) pipeline_stages -> select label out = Series i ->
            In r (rows out) -> exists c, at_col i r = f c).
  { intros label f i r Hin Hs Hr.
    rewrite (select_columns _ _ _ C) in Hs.
    destruct (main_row_origin _ _ _ H Hr) as (r0 & Hr0 & -> & _).
    exists (at_col i r0). apply (cleaned_row_cell _ label); auto.
    unfold well_formed in Hwf. rewrite Forall_forall in Hwf. rewrite (Hwf r0 Hr0).
    apply select_series_bound in Hs. simpl in Hs. now rewrite length_map in Hs. }
  split.
  - intros i r Hs Hr.
    destruct (Hcell "category" category_value i r) as [c ->]; auto.
    { simpl. tauto. }
    eexists. split; [reflexivity | apply normalize_category_vocabulary].
  - intros i r Hs Hr.
    destruct (Hcell "prodname" prodname_value i r) as [c ->]; auto.
    { simpl. tauto. }
    eexists. split; [reflexivity|].
    destruct (prodname_text_stripped (astype_str c)) as [S1 S2].
    split; [exact S1|]. split; [exact S2 | apply title_from_runs_titled].
Qed.

Lemma main_output_text_witness :
  (exists t, VStr "office" = VStr t /\ in_vocabulary t) /\
  (exists t, VStr "Standing Desk" = VStr t /\
             PyStr.strip t = t /\ PyStr.collapse_ws t = t /\ runs_titled t = true).
Proof.
  destruct (@main_output_text Sample.scalars Sample.raw Sample.cleaned eq_refl)
    as [Hc Hn].
  { repeat constructor. }
  split.
  - apply (Hc 1 [VStr "Standing Desk"; VStr "office"; VNum (NInt 150); VNum (NInt 2);
                 VTime 20240105]); [reflexivity | simpl; tauto].
  - apply (Hn 0 [VStr "Standing Desk"; VStr "office"; VNum (NInt 150); VNum (NInt 2);
                 VTime 20240105]); [reflexivity | simpl; tauto].
Defined.

(** X17. Running the whole pipeline on its own output returns that output,
    when no category text of the raw frame has double quotes around it:
    cleaned labels, converted cells, valid rows and first occurrences are
    all left as they are. *)
Theorem main_idempotent {pandas : PandasScalars} (df_raw out : DataFrame) :
  main df_raw = Ok out ->
  (forall i r, select "category" (clean_column_names df_raw) = Series i ->
               In r (rows df_raw) -> i < length r ->
               unquoted (astype_str (at_col i r))) ->
  main out = Ok out.
Proof.
  intros H Hq. set (df := clean_column_names df_raw) in *.
  pose proof (main_columns _ _ H) as C.
  assert (C' : columns (clean_column_names out) = columns df).
  { simpl. rewrite C. apply (clean_column_names_fixed_labels df_raw). }
  destruct (main_labels _ _ H) as ((p & q & Hp & Hq') & Hc & Hd & Hn). fold df in Hp, Hq', Hc, Hd, Hn.
  destruct (main_defined out p q) as [out2 H2];
    try (now rewrite (select_columns _ _ _ C')).
  rewrite H2. f_equal.
  pose proof (main_columns _ _ H2) as C2.
  pose proof (main_rows _ _ H2) as R2.
  pose proof (main_rows _ _ H) as R. fold df in R.
  assert (Hfix : forall x, In x (rows out) ->
            cleaned_row (clean_column_names out) x = x /\
            date_present (clean_column_names out) x
            && positive_row (clean_column_names out) x = true).
  { intros x Hx. destruct (main_row_origin _ _ _ H Hx) as (r0 & Hr0 & -> & Hdp & Hpos).
    fold df in Hdp, Hpos |- *.
    rewrite (cleaned_row_columns df _ _ C'), (date_present_columns df _ _ C'),
            (positive_row_columns df _ _ C').
    split; [|now rewrite Hdp, Hpos].
    apply cleaned_row_fixed. intros i Hs Hlt. now apply (Hq i r0). }
  destruct out as [cols rs], out2 as [cols2 rs2]. simpl in *.
  f_equal.
  - rewrite C2, C. rewrite map_map. apply map_ext. intros name. apply clean_name_fixed.
  - rewrite R2.
    rewrite (map_ext_in _ (fun x => x)) by (intros x Hx; apply (Hfix x Hx)).
    rewrite map_id, filter_all by (intros x Hx; apply (Hfix x Hx)).
    apply keep_first_fixed. rewrite R. apply keep_first_nodup.
Qed.

Lemma main_idempotent_witness :
  main Sample.shop = Ok Sample.cleaned /\ main Sample.cleaned = Ok Sample.cleaned.
Proof.
  split; [reflexivity|].
  apply (@main_idempotent Sample.scalars Sample.shop Sample.cleaned);
    [reflexivity|].
  intros i r Hs Hr _. injection Hs as <-. simpl in Hr.
  repeat (destruct Hr as [<-|Hr]; [reflexivity|]). destruct Hr.
Defined.

(* ================================================================= *)
(** ** Labels that clean to the same label *)

Section MergedLabelFacts.

Lemma select_repeated label df i j :
  i <> j ->
  nth_error (columns df) i = Some label -> nth_error (columns df) j = Some label ->
  select label df = Frame.
Proof.
  intros Hij Hi Hj.
  assert (Pi : In i (positions label (columns df) 0)).
  { apply positions_spec. split; [lia|]. now rewrite Nat.sub_0_r. }
  assert (Pj : In j (positions label (columns df) 0)).
  { apply positions_spec. split; [lia|]. now rewrite Nat.sub_0_r. }
  unfold select. destruct (positions label (columns df) 0) as [|a [|b l]].
  - destruct Pi.
  - destruct Pi as [<-|[]]. destruct Pj as [<-|[]]. congruence.
  - reflexivity.
Qed.

End MergedLabelFacts.

(** X18. When two different raw labels clean to the same label and that
    label is one the pipeline reads (category, date_sold, prodname, price or
    qty), the pipeline raises: the repeated label selects a frame, not a
    column. *)
Theorem main_raises_on_merged_labels {pandas : PandasScalars}
    (df_raw : DataFrame) (i j : nat) (a b : string) :
  i <> j ->
  nth_error (columns df_raw) i = Some a -> nth_error (columns df_raw) j = Some b ->
  clean_name a = clean_name b ->
  In (clean_name a) ["category"; "date_sold"; "prodname"; "price"; "qty"] ->
  exists e, main df_raw = Raise e.
Proof.
  intros Hij Hi Hj Hab Hin.
  assert (F : select (clean_name a) (clean_column_names df_raw) = Frame).
  { apply (select_repeated _ _ i j Hij); simpl.
    - now apply map_nth_error.
    - rewrite Hab. now apply map_nth_error. }
  destruct (main df_raw) as [out|e] eqn:E; [|now exists e].
  exfalso. destruct (main_labels _ _ E) as ((p & q & Hp & Hq) & Hc & Hd & Hn).
  simpl in Hin.
  destruct Hin as [L|[L|[L|[L|[L|[]]]]]]; rewrite <- L in F; congruence.
Qed.

Lemma main_raises_on_merged_labels_witness :
  exists e, main Sample.merged = Raise e.
Proof.
  apply (@main_raises_on_merged_labels Sample.scalars Sample.merged 0 1
           "Price" "price ");
    [discriminate | reflexivity | reflexivity | reflexivity | simpl; tauto].
Defined.
